(** * CoPHE: hierarchical evaluation of multi-label classifiers

    A shallow embedding of [scripts/evaluation_setup.py] (transition
    matrices from leaves to the layers of an ontology, projection of
    prediction and gold matrices) and of [scripts/multi_level_eval.py]
    (count-based true/false positives and negatives, per-class, micro and
    macro reports), followed by the properties proved about them.

    Conventions of the embedding:
    - a Python exception is a value of [exn]; a computation that may raise
      is a [result];
    - Python [int]s are [Z] (or [nat] where the source only produces
      [range] indices and lengths), Python [bool]s used as numbers are
      their integer values 1 and 0;
    - a [dict] that is only looked up is a [gmap]; the [dict] [code_ids],
      which is iterated in insertion order, is an association list;
    - a [set] is a [gset]; the order in which Python enumerates a set is not
      fixed by the language, so it is a parameter [set_list] of the model. *)

From Stdlib Require Import ZArith QArith Lia Lqa.
From stdpp Require Import gmap strings list sorting.

Abbreviation Code := string.

(** ** Exceptions and results *)

Inductive exn : Set := KeyError | IndexError | ValueError | TypeError.

(** [KeyError] and [IndexError] are the two subclasses of [LookupError]. *)
Definition LookupError (e : exn) : Prop := e = KeyError ∨ e = IndexError.

Inductive result (A : Type) : Type :=
  | Ok (a : A)
  | Raise (e : exn).
Arguments Ok {A} a.
Arguments Raise {A} e.

#[global] Instance result_ret : MRet result := λ A a, Ok a.
#[global] Instance result_bind : MBind result := λ A B f m,
  match m with
  | Ok a => f a
  | Raise e => Raise e
  end.

(** [d[k]] on a dict and [l[i]] on a list, for [i >= 0]. *)
Definition dict_get `{Countable K} {V} (d : gmap K V) (k : K) : result V :=
  match d !! k with
  | Some v => Ok v
  | None => Raise KeyError
  end.

Definition list_get {A} (l : list A) (i : nat) : result A :=
  match l !! i with
  | Some x => Ok x
  | None => Raise IndexError
  end.

Definition Zsum (l : list Z) : Z := foldr Z.add 0%Z l.

(** ** scipy's [csr_matrix((vals, (rows, cols)), shape)]

    The matrix is kept as its shape and its coordinate triples
    [(row, col, val)], one per emitted entry.  Construction raises a
    [ValueError] when an index lies outside the shape; entries given for the
    same position are added up when the matrix is read, which is what
    [toarray] does. *)

Record csr : Type := mk_csr {
  shape : nat * nat;
  coo : list (nat * nat * Z)
}.

Definition csr_matrix (vals : list Z) (rows cols : list nat)
    (shp : nat * nat) : result csr :=
  if forallb (λ r, r <? shp.1) rows && forallb (λ c, c <? shp.2) cols
  then Ok (mk_csr shp (zip (zip rows cols) vals))
  else Raise ValueError.

Definition toarray (m : csr) (i j : nat) : Z :=
  Zsum (map (λ t : nat * nat * Z,
               if decide (t.1.1 = i ∧ t.1.2 = j) then t.2 else 0%Z) (coo m)).

Definition row_sum (m : csr) (i : nat) : Z :=
  Zsum (map (toarray m i) (seq 0 (shape m).2)).

(** ** evaluation_setup.py: [setup_matrices_by_layer] *)

(** A value of [translation_dict]: the dict [{"parents": [...]}]. *)
Record entry : Type := mk_entry { parents : list Code }.

(** [translation_dict[code]["parents"][layer]] *)
Definition ancestor_of (translation_dict : gmap Code entry)
    (code : Code) (layer : nat) : result Code :=
  e ← dict_get translation_dict code;
  list_get (parents e) layer.

Section setup.
(** [list(s)] for a Python set [s]. *)
Variable set_list : gset Code → list Code.

Variable code_ids : list (Code * nat).
Variable translation_dict : gmap Code entry.
Variable max_layer : Z.
Variable include_duplicates : bool.

(** First loop of the body: the ancestors of all codes at [layer]. *)
Definition layer_ancestors (layer : nat) : result (list Code) :=
  mapM (λ cr : Code * nat, ancestor_of translation_dict cr.1 layer) code_ids.

(** [dict(zip(list(layer_codeset), layer_ranges))] *)
Definition make_layer_id_dict (layer_codeset : gset Code) : gmap Code nat :=
  let codes := set_list layer_codeset in
  list_to_map (zip codes (seq 0 (length codes))).

(** The value appended to [vals] for one code (lines 31 to 36).  In the
    second branch Python appends the bool [not (duplicate_ancestor * 1)],
    that is 1 when the two codes differ and 0 when they are equal. *)
Definition edge_val (layer : nat) (code ancestor : Code) : result Z :=
  if include_duplicates || (Z.of_nat layer =? max_layer - 2)%Z then Ok 1%Z
  else
    double_ancestor ← ancestor_of translation_dict ancestor layer;
    let duplicate_ancestor := bool_decide (double_ancestor = code) in
    Ok (Z.b2z (negb duplicate_ancestor)).

(** One round of the second loop, for a key [cr.1] of [code_ids] and its
    value [cr.2 = code_ids[cr.1]]: the triple appended to [rows], [cols]
    and [vals]. *)
Definition emit (layer : nat) (layer_id_dict : gmap Code nat)
    (cr : Code * nat) : result (nat * nat * Z) :=
  ancestor ← ancestor_of translation_dict cr.1 layer;
  col ← dict_get layer_id_dict ancestor;
  val ← edge_val layer cr.1 ancestor;
  Ok (cr.2, col, val).

(** The body of the loop over the layers. *)
Definition setup_layer (layer : nat) : result (csr * gmap Code nat) :=
  ancestors ← layer_ancestors layer;
  let layer_codeset : gset Code := list_to_set ancestors in
  let layer_id_dict := make_layer_id_dict layer_codeset in
  triples ← mapM (emit layer layer_id_dict) code_ids;
  let rows := triples.*1.*1 in
  let cols := triples.*1.*2 in
  let vals := triples.*2 in
  matrix ← csr_matrix vals rows cols
              (length rows, length (remove_dups cols));
  Ok (matrix, layer_id_dict).

Definition setup_matrices_by_layer
    : result (list csr * list (gmap Code nat)) :=
  layers ← mapM setup_layer (seq 0 (Z.to_nat max_layer));
  Ok (layers.*1, layers.*2).
End setup.

(** ** Dense two-dimensional integer arrays

    An array is its number of columns and the list of its rows; the number
    of columns is kept apart so that an array without rows still has a
    shape.  Entries are unbounded integers: the counts of the label
    matrices stay far below the range of numpy's [int64]. *)

Record ndarray : Type := mk_nd {
  ncols : nat;
  nd_rows : list (list Z)
}.

Definition nrows (a : ndarray) : nat := length (nd_rows a).

Definition wf_nd (a : ndarray) : Prop :=
  Forall (λ r, length r = ncols a) (nd_rows a).

Definition same_shape (a b : ndarray) : Prop :=
  nrows a = nrows b ∧ ncols a = ncols b.

(** [a[i, j]] *)
Definition at_ (a : ndarray) (i j : nat) : Z := (nd_rows a !!! i) !!! j.

Definition vec_add : list Z → list Z → list Z := zip_with Z.add.


(** The axis argument of [np.sum] on a two-dimensional array:
    [0], [1] or [(0, 1)]. *)
Inductive axis_spec : Set := Axis0 | Axis1 | AxisAll.

(** Summing over one axis leaves a vector, over both a scalar. *)
Definition sum_out (axes : axis_spec) : Type :=
  match axes with
  | AxisAll => Z
  | _ => list Z
  end.

Definition np_sum (a : ndarray) (axes : axis_spec) : sum_out axes :=
  match axes with
  | Axis0 => foldr vec_add (replicate (ncols a) 0%Z) (nd_rows a)
  | Axis1 => map Zsum (nd_rows a)
  | AxisAll => Zsum (map Zsum (nd_rows a))
  end.

(** Elementwise operations, on operands of one shape (numpy's broadcasting
    of operands of different shapes is not part of the model; the reporting
    functions are specified for equal shapes only). *)
Definition elementwise (f : Z → Z → Z) (a b : ndarray) : ndarray :=
  mk_nd (ncols a) (zip_with (zip_with f) (nd_rows a) (nd_rows b)).

Definition np_minimum : ndarray → ndarray → ndarray := elementwise Z.min.
Definition np_subtract : ndarray → ndarray → ndarray := elementwise Z.sub.

(** [np.maximum(a, c)] and [(a > c) * 1] for a scalar [c]. *)
Definition np_maximum_scalar (a : ndarray) (c : Z) : ndarray :=
  mk_nd (ncols a) (map (map (λ x, Z.max x c)) (nd_rows a)).

Definition greater_times_one (a : ndarray) (c : Z) : ndarray :=
  mk_nd (ncols a) (map (map (λ x, (Z.b2z (c <? x) * 1)%Z)) (nd_rows a)).





(** ** evaluation_setup.py: [low_level_diagonal], [hierarchical_eval_setup] *)



(** ** multi_level_eval.py: true positives, false positives, false negatives *)

Definition tp_matrix_mul (pred gold : ndarray) (axes : axis_spec)
    : sum_out axes :=
  np_sum (np_minimum pred gold) axes.

Definition fp_matrix_mul (pred gold : ndarray) (axes : axis_spec)
    : sum_out axes :=
  np_sum (np_maximum_scalar (np_subtract pred gold) 0) axes.

Definition fn_matrix_mul (pred gold : ndarray) (axes : axis_spec)
    : sum_out axes :=
  np_sum (np_maximum_scalar (np_subtract gold pred) 0) axes.

(** The [_full] and [_per_class] variants, at their default [axes]. *)
Definition tp_matrix_mul_full (pred gold : ndarray) : Z :=
  tp_matrix_mul pred gold AxisAll.
Definition fp_matrix_mul_full (pred gold : ndarray) : Z :=
  fp_matrix_mul pred gold AxisAll.
Definition fn_matrix_mul_full (pred gold : ndarray) : Z :=
  fn_matrix_mul pred gold AxisAll.

Definition tp_matrix_mul_per_class (pred gold : ndarray) : list Z :=
  tp_matrix_mul pred gold Axis0.
Definition fp_matrix_mul_per_class (pred gold : ndarray) : list Z :=
  fp_matrix_mul pred gold Axis0.
Definition fn_matrix_mul_per_class (pred gold : ndarray) : list Z :=
  fn_matrix_mul pred gold Axis0.

(** ** Results of true division

    [/] on integer arrays yields floats.  A float is modelled by the exact
    rational it stands for, or by one of the special values that a division
    by zero produces; rounding is not modelled. *)

Inductive npfloat : Type :=
  | Fin (q : Q)
  | Inf (negative : bool)
  | NaN.

Definition of_Z (z : Z) : npfloat := Fin (inject_Z z).

Definition Qneg (q : Q) : bool := (Qnum q <? 0)%Z.

Definition fadd (x y : npfloat) : npfloat :=
  match x, y with
  | NaN, _ | _, NaN => NaN
  | Fin a, Fin b => Fin (a + b)
  | Inf s, Fin _ | Fin _, Inf s => Inf s
  | Inf s, Inf t => if bool_decide (s = t) then Inf s else NaN
  end.

Definition fmul (x y : npfloat) : npfloat :=
  match x, y with
  | NaN, _ | _, NaN => NaN
  | Fin a, Fin b => Fin (a * b)
  | Inf s, Fin a | Fin a, Inf s =>
      if Qeq_bool a 0 then NaN else Inf (xorb s (Qneg a))
  | Inf s, Inf t => Inf (xorb s t)
  end.

Definition fdiv (x y : npfloat) : npfloat :=
  match x, y with
  | NaN, _ | _, NaN => NaN
  | Fin a, Fin b =>
      if Qeq_bool b 0
      then (if Qeq_bool a 0 then NaN else Inf (Qneg a))
      else Fin (a / b)
  | Fin _, Inf _ => Fin 0
  | Inf s, Fin b => Inf (xorb s (Qneg b))
  | Inf _, Inf _ => NaN
  end.

(** [(x == 0) * 1] *)
Definition feq0_times_one (x : npfloat) : npfloat :=
  match x with
  | Fin a => of_Z (Z.b2z (Qeq_bool a 0) * 1)
  | _ => of_Z 0
  end.

Definition zeq0_times_one (d : Z) : Z := (Z.b2z (d =? 0) * 1)%Z.

Definition fsum (l : list npfloat) : npfloat := foldr fadd (of_Z 0) l.

(** [np.average(v, axis = 0)] for a vector [v] *)
Definition np_average (v : list npfloat) : npfloat :=
  fdiv (fsum v) (of_Z (Z.of_nat (length v))).

(** ** multi_level_eval.py: the reports *)

(** A row of the data frame that [report] returns. *)
Record report_row : Type := mk_row {
  Precision : npfloat;
  Recall : npfloat;
  F1 : npfloat;
  Support : Z;
  RowCode : Code
}.

Definition report (pred gold : ndarray) (code_id_dict : gmap nat Code)
    : list report_row :=
  let tp := tp_matrix_mul_per_class pred gold in
  let fp := fp_matrix_mul_per_class pred gold in
  let fn := fn_matrix_mul_per_class pred gold in
  let support := np_sum gold Axis0 in
  let prec_denom := vec_add tp fp in
  let prec_denom_corrected := vec_add prec_denom (zeq0_times_one <$> prec_denom) in
  let prec := zip_with fdiv (of_Z <$> tp) (of_Z <$> prec_denom_corrected) in
  let rec_denom := vec_add tp fn in
  let rec_denom_corrected := vec_add rec_denom (zeq0_times_one <$> rec_denom) in
  let rec := zip_with fdiv (of_Z <$> tp) (of_Z <$> rec_denom_corrected) in
  let f1_denom := zip_with fadd prec rec in
  let f1_denom_corrected := zip_with fadd f1_denom (feq0_times_one <$> f1_denom) in
  let f1 := zip_with fdiv (fmul (of_Z 2) <$> zip_with fmul prec rec)
                     f1_denom_corrected in
  let code_ids := merge_sort Nat.le (map_to_list code_id_dict).*1 in
  let codes := omap (λ k, code_id_dict !! k) code_ids in
  zip_with (λ (t : npfloat * npfloat * npfloat * Z) c,
              mk_row t.1.1.1 t.1.1.2 t.1.2 t.2 c)
           (zip (zip (zip prec rec) f1) support) codes.

Open Scope string_scope.

Definition report_micro (pred gold : ndarray) : gmap string npfloat :=
  let tp := tp_matrix_mul_full pred gold in
  let fp := fp_matrix_mul_full pred gold in
  let fn := fn_matrix_mul_full pred gold in
  let prec_denom := (tp + fp)%Z in
  let prec_denom_corrected := (prec_denom + zeq0_times_one prec_denom)%Z in
  let prec_micro := fdiv (of_Z tp) (of_Z prec_denom_corrected) in
  let rec_denom := (tp + fn)%Z in
  let rec_denom_corrected := (rec_denom + zeq0_times_one rec_denom)%Z in
  let rec_micro := fdiv (of_Z tp) (of_Z rec_denom_corrected) in
  let f1_denom := fadd prec_micro rec_micro in
  let f1_denom_corrected := fadd f1_denom (feq0_times_one f1_denom) in
  let f1 := fdiv (fmul (of_Z 2) (fmul prec_micro rec_micro)) f1_denom_corrected in
  {[ "Precision" := prec_micro; "Recall" := rec_micro; "F1" := f1 ]}.

Definition report_macro (pred gold : ndarray) : gmap string npfloat :=
  let tp := tp_matrix_mul_per_class pred gold in
  let fp := fp_matrix_mul_per_class pred gold in
  let fn := fn_matrix_mul_per_class pred gold in
  let prec_denom := vec_add tp fp in
  let prec_denom_corrected := vec_add prec_denom (zeq0_times_one <$> prec_denom) in
  let prec := zip_with fdiv (of_Z <$> tp) (of_Z <$> prec_denom_corrected) in
  let prec_macro := np_average prec in
  let rec_denom := vec_add tp fn in
  let rec_denom_corrected := vec_add rec_denom (zeq0_times_one <$> rec_denom) in
  let rec := zip_with fdiv (of_Z <$> tp) (of_Z <$> rec_denom_corrected) in
  let rec_macro := np_average rec in
  let f1_denom := fadd prec_macro rec_macro in
  let f1_denom_corrected := fadd f1_denom (feq0_times_one f1_denom) in
  let f1 := fdiv (fmul (of_Z 2) (fmul prec_macro rec_macro)) f1_denom_corrected in
  {[ "Precision" := prec_macro; "Recall" := rec_macro; "F1" := f1 ]}.

(** A call [report(...)]: the three parameters of [report] have no default
    value, so a call that leaves [code_id_dict] out raises a [TypeError]. *)
Definition call_report (pred gold : ndarray)
    (code_id_dict : option (gmap nat Code)) : result (list report_row) :=
  match code_id_dict with
  | Some d => Ok (report pred gold d)
  | None => Raise TypeError
  end.

Definition report_macro_bin (pred gold : ndarray) : gmap string npfloat :=
  let pred_bin := greater_times_one pred 0 in
  let gold_bin := greater_times_one gold 0 in
  report_macro pred_bin gold_bin.

Definition report_micro_bin (pred gold : ndarray) : gmap string npfloat :=
  let pred_bin := greater_times_one pred 0 in
  let gold_bin := greater_times_one gold 0 in
  report_micro pred_bin gold_bin.

(** [report_bin] passes two arguments to [report]. *)
Definition report_bin (pred gold : ndarray) : result (list report_row) :=
  let pred_bin := greater_times_one pred 0 in
  let gold_bin := greater_times_one gold 0 in
  call_report pred_bin gold_bin None.

(** ** Sums written with indices

    [sigma n f] is the sum of [f 0], ..., [f (n-1)]; [sum_over] is the sum of
    the entries [f i j] of an [nr] by [nc] table over the given axes. *)
Definition sigma (n : nat) (f : nat → Z) : Z := Zsum (map f (seq 0 n)).

Definition sum_over (axes : axis_spec) (nr nc : nat) (f : nat → nat → Z)
    : sum_out axes :=
  match axes with
  | Axis0 => map (λ j, sigma nr (λ i, f i j)) (seq 0 nc)
  | Axis1 => map (λ i, sigma nc (λ j, f i j)) (seq 0 nr)
  | AxisAll => sigma nr (λ i, sigma nc (λ j, f i j))
  end.

(** ** Ratios as the specification states them *)

(** A ratio whose zero denominator is replaced by 1, the numerator being 0
    in that case. *)
Definition guarded_ratio (n d : Z) : Q :=
  if (d =? 0)%Z then 0%Q else (inject_Z n / inject_Z d)%Q.

Definition guarded_f1 (p r : Q) : Q :=
  if Qeq_bool (p + r) 0 then 0%Q else (2 * (p * r) / (p + r))%Q.



(** True positives, false positives and false negatives of class [j]. *)
Definition class_tp (pred gold : ndarray) (j : nat) : Z :=
  sigma (nrows pred) (λ i, Z.min (at_ pred i j) (at_ gold i j)).
Definition class_fp (pred gold : ndarray) (j : nat) : Z :=
  sigma (nrows pred) (λ i, Z.max (at_ pred i j - at_ gold i j) 0).
Definition class_fn (pred gold : ndarray) (j : nat) : Z :=
  sigma (nrows pred) (λ i, Z.max (at_ gold i j - at_ pred i j) 0).


Definition nonneg (a : ndarray) : Prop :=
  Forall (Forall (λ x, 0 ≤ x)%Z) (nd_rows a).


(** One component of the vectors that the reports compute: the precision
    (or recall) from a numerator [n] and the other summand [m] of its
    denominator, and the F1 score from a precision and a recall. *)
Definition ratio_of (n m : Z) : npfloat :=
  fdiv (of_Z n) (of_Z ((n + m) + zeq0_times_one (n + m))).

Definition f1_of (x y : npfloat) : npfloat :=
  fdiv (fmul (of_Z 2) (fmul x y))
       (fadd (fadd x y) (feq0_times_one (fadd x y))).



(** The worked example for the macro F1 score: two documents, two classes. *)
Definition macro_pred : ndarray := mk_nd 2 [[1; 1]; [0; 1]]%Z.
Definition macro_gold : ndarray := mk_nd 2 [[1; 1]; [1; 0]]%Z.
Definition macro_code_id_dict : gmap nat Code := {[ 0 := "a"; 1 := "b" ]}.

(** ** Well-formed inputs and example data *)

(** A leaf map as the data model has it: the keys are distinct and the
    indices are the numbers 0 to N-1, each used once. *)
Definition dense_index_map (code_ids : list (Code * nat)) : Prop :=
  NoDup code_ids.*1 ∧ code_ids.*2 ≡ₚ seq 0 (length code_ids).

(** The demonstration of [evaluation_setup.py]: nine leaves under the
    parents a, b, c, d and the grandparents AB, CD. *)
Definition demo_code_ids : list (Code * nat) :=
  zip ["a.1"; "a.2"; "a.3"; "b.1"; "b.2"; "c.1"; "d.1"; "d.2"; "d.3"] (seq 0 9).

Definition demo_translation_dict : gmap Code entry :=
  list_to_map
    [("a.1", mk_entry ["a"; "AB"]); ("a.2", mk_entry ["a"; "AB"]);
     ("a.3", mk_entry ["a"; "AB"]); ("b.1", mk_entry ["b"; "AB"]);
     ("b.2", mk_entry ["b"; "AB"]); ("c.1", mk_entry ["c"; "CD"]);
     ("d.1", mk_entry ["d"; "CD"]); ("d.2", mk_entry ["d"; "CD"]);
     ("d.3", mk_entry ["d"; "CD"])].

(** What [setup_matrices_by_layer] returns on it for [max_layer = 2], when
    sets are enumerated as [elements] does. *)
Definition demo_matrices : list csr :=
  [mk_csr (9, 4) [(0, 1, 1%Z); (1, 1, 1%Z); (2, 1, 1%Z); (3, 2, 1%Z);
                  (4, 2, 1%Z); (5, 0, 1%Z); (6, 3, 1%Z); (7, 3, 1%Z);
                  (8, 3, 1%Z)];
   mk_csr (9, 2) [(0, 1, 1%Z); (1, 1, 1%Z); (2, 1, 1%Z); (3, 1, 1%Z);
                  (4, 1, 1%Z); (5, 0, 1%Z); (6, 0, 1%Z); (7, 0, 1%Z);
                  (8, 0, 1%Z)]].

Definition demo_layer_id_dicts : list (gmap Code nat) :=
  [ {[ "c" := 0; "a" := 1; "b" := 2; "d" := 3 ]}; {[ "CD" := 0; "AB" := 1 ]} ].

(** A shallow branch: the code d is a leaf that sits one level above the
    other leaves, and is padded with itself as its own layer-0 parent. *)
Definition shallow_code_ids : list (Code * nat) := [("a.1", 0); ("d", 1)].

Definition shallow_translation_dict : gmap Code entry :=
  {[ "a.1" := mk_entry ["a"; "AB"];
     "d" := mk_entry ["d"; "CD"];
     "a" := mk_entry ["AB"; "AB"] ]}.

Definition shallow_matrix : csr := mk_csr (2, 2) [(0, 0, 1%Z); (1, 1, 0%Z)].

Definition shallow_layer_id_dict : gmap Code nat := {[ "a" := 0; "d" := 1 ]}.







(** A matrix of zeros and ones. *)
Definition binary (a : ndarray) : Prop :=
  Forall (Forall (λ x, x = 0%Z ∨ x = 1%Z)) (nd_rows a).

(** A leaf map whose second index is not below the number of leaves. *)
Definition sparse_code_ids : list (Code * nat) := [("a.1", 0); ("d", 5)].


(** Two documents and no class. *)
Definition no_class_matrix : ndarray := mk_nd 0 [[]; []].

(** * Properties *)

(** ** The result monad *)

Lemma bind_Ok {A B} (m : result A) (f : A → result B) (b : B) :
  m ≫= f = Ok b ↔ ∃ a, m = Ok a ∧ f a = Ok b.
Proof.
  destruct m as [a|e]; simpl; split.
  - intros Hf. by exists a.
  - by intros (a' & [= ->] & Hf).
  - discriminate.
  - by intros (a' & [=] & _).
Qed.

Lemma bind_Raise {A B} (m : result A) (f : A → result B) (e : exn) :
  m ≫= f = Raise e ↔ m = Raise e ∨ ∃ a, m = Ok a ∧ f a = Raise e.
Proof.
  destruct m as [a|e']; simpl; split.
  - intros Hf. right. by exists a.
  - intros [[=]|(a' & [= ->] & Hf)]. done.
  - intros [= ->]. by left.
  - intros [[= ->]|(a' & [=] & _)]. done.
Qed.

Lemma mapM_Ok {A B} (f : A → result B) (l : list A) (k : list B) :
  mapM f l = Ok k ↔ Forall2 (λ x y, f x = Ok y) l k.
Proof.
  revert k. induction l as [|x l IH]; intros k; simpl.
  - split.
    + intros [= <-]. constructor.
    + by inversion 1.
  - split.
    + intros (y & Hy & (k' & Hk' & [= <-])%bind_Ok)%bind_Ok.
      constructor; [done|]. by apply IH.
    + inversion 1 as [|? y ? k' Hy Hk']; subst.
      apply bind_Ok. exists y. split; [done|].
      apply bind_Ok. exists k'. split; [by apply IH|done].
Qed.

Lemma mapM_Raise {A B} (f : A → result B) (l : list A) (e : exn) :
  mapM f l = Raise e → ∃ x, x ∈ l ∧ f x = Raise e.
Proof.
  induction l as [|x l IH]; simpl; [discriminate|].
  intros [Hx|(y & Hy & [Hl|(k & _ & [=])]%bind_Raise)]%bind_Raise.
  - exists x. split; [left|done].
  - destruct (IH Hl) as (x' & Hin & Hx'). exists x'. split; [by right|done].
Qed.

Lemma mapM_Ok_elem {A B} (f : A → result B) (l : list A) (k : list B) (x : A) :
  mapM f l = Ok k → x ∈ l → ∃ y, f x = Ok y ∧ y ∈ k.
Proof.
  intros Hl%mapM_Ok Hx.
  apply list_elem_of_lookup in Hx as [i Hi].
  destruct (Forall2_lookup_l _ _ _ _ _ Hl Hi) as (y & Hy & Hxy).
  exists y. split; [done|]. by eapply list_elem_of_lookup_2.
Qed.

(** A round that raises makes the whole loop raise. *)
Lemma mapM_elem_Raise {A B} (f : A → result B) (l : list A) (x : A) (e : exn) :
  x ∈ l → f x = Raise e → ∃ e', mapM f l = Raise e'.
Proof.
  intros Hx Hfx. destruct (mapM f l) as [k|e'] eqn:Hl; [|by exists e'].
  destruct (mapM_Ok_elem _ _ _ _ Hl Hx) as (y & Hy & _). congruence.
Qed.

Lemma dict_get_Ok `{Countable K} {V} (d : gmap K V) (k : K) (v : V) :
  dict_get d k = Ok v ↔ d !! k = Some v.
Proof. unfold dict_get. destruct (d !! k); naive_solver. Qed.

Lemma list_get_Ok {A} (l : list A) (i : nat) (x : A) :
  list_get l i = Ok x ↔ l !! i = Some x.
Proof. unfold list_get. destruct (l !! i); naive_solver. Qed.

Lemma ancestor_of_Ok td code layer anc :
  ancestor_of td code layer = Ok anc ↔
  ∃ e, td !! code = Some e ∧ parents e !! layer = Some anc.
Proof.
  unfold ancestor_of. rewrite bind_Ok. setoid_rewrite dict_get_Ok.
  by setoid_rewrite list_get_Ok.
Qed.

(** Every exception of a lookup in [translation_dict] is a [LookupError]. *)
Lemma ancestor_of_Raise td code layer e :
  ancestor_of td code layer = Raise e → LookupError e.
Proof.
  unfold ancestor_of, dict_get, list_get, LookupError.
  destruct (td !! code) as [en|]; simpl; [|naive_solver].
  destruct (parents en !! layer); naive_solver.
Qed.

(** ** [setup_matrices_by_layer] *)

Section setup_facts.
Variable set_list : gset Code → list Code.
Hypothesis set_list_NoDup : ∀ X, NoDup (set_list X).
Hypothesis elem_of_set_list : ∀ X x, x ∈ set_list X ↔ x ∈ X.

Variable code_ids : list (Code * nat).
Variable translation_dict : gmap Code entry.
Variable max_layer : Z.
Variable include_duplicates : bool.


Lemma csr_matrix_Ok vals rows cols shp m :
  csr_matrix vals rows cols shp = Ok m →
  m = mk_csr shp (zip (zip rows cols) vals) ∧
  Forall (λ r, r < shp.1) rows ∧ Forall (λ c, c < shp.2) cols.
Proof.
  unfold csr_matrix.
  destruct (forallb _ rows && forallb _ cols) eqn:Hb; [|discriminate].
  intros [= <-]. apply andb_true_iff in Hb as [Hr Hc].
  split; [done|]. split; apply Forall_forall; intros x Hx%list_elem_of_In.
  - eapply forallb_forall in Hr; [|done]. by apply Nat.ltb_lt in Hr.
  - eapply forallb_forall in Hc; [|done]. by apply Nat.ltb_lt in Hc.
Qed.

Lemma setup_layer_Ok layer m d :
  setup_layer set_list code_ids translation_dict max_layer
    include_duplicates layer = Ok (m, d) →
  ∃ ancestors,
    layer_ancestors code_ids translation_dict layer = Ok ancestors ∧
    d = make_layer_id_dict set_list (list_to_set ancestors) ∧
    Forall2 (λ cr t, emit translation_dict max_layer include_duplicates
                       layer d cr = Ok t) code_ids (coo m) ∧
    shape m = (length code_ids, length (remove_dups (coo m).*1.*2)) ∧
    Forall (λ r, r < (shape m).1) (coo m).*1.*1 ∧
    Forall (λ c, c < (shape m).2) (coo m).*1.*2.
Proof.
  unfold setup_layer.
  intros (ancestors & Hanc & (triples & Htr & Hm)%bind_Ok)%bind_Ok.
  apply bind_Ok in Hm as (m' & Hm' & [= -> <-]).
  apply csr_matrix_Ok in Hm' as (-> & Hrows & Hcols). simpl in *.
  rewrite !zip_fst_snd.
  apply mapM_Ok in Htr. pose proof (Forall2_length _ _ _ Htr) as Hlen.
  exists ancestors. rewrite !length_fmap in *. rewrite Hlen.
  repeat split; try done.
Qed.

Lemma setup_matrices_by_layer_Ok ms ds :
  setup_matrices_by_layer set_list code_ids translation_dict max_layer
    include_duplicates = Ok (ms, ds) →
  Forall2 (λ layer md, setup_layer set_list code_ids translation_dict max_layer
    include_duplicates layer = Ok md)
          (seq 0 (Z.to_nat max_layer)) (zip ms ds) ∧
  length ms = Z.to_nat max_layer ∧ length ds = Z.to_nat max_layer.
Proof.
  unfold setup_matrices_by_layer.
  intros (layers & Hl%mapM_Ok & [= <- <-])%bind_Ok.
  pose proof (Forall2_length _ _ _ Hl) as Hlen. rewrite length_seq in Hlen.
  rewrite zip_fst_snd, !length_fmap. done.
Qed.

Lemma setup_matrices_by_layer_lookup ms ds layer m :
  setup_matrices_by_layer set_list code_ids translation_dict max_layer
    include_duplicates = Ok (ms, ds) →
  ms !! layer = Some m →
  ∃ d, ds !! layer = Some d ∧ setup_layer set_list code_ids translation_dict max_layer
    include_duplicates layer = Ok (m, d) ∧
       layer < Z.to_nat max_layer.
Proof.
  intros (Hl & Hms & Hds)%setup_matrices_by_layer_Ok Hm.
  pose proof (lookup_lt_Some _ _ _ Hm) as Hlt.
  destruct (lookup_lt_is_Some_2 ds layer) as [d Hd]; [lia|].
  exists d. split; [done|]. split; [|lia].
  assert (zip ms ds !! layer = Some (m, d)) as Hmd.
  { rewrite lookup_zip_with, Hm, Hd. done. }
  destruct (Forall2_lookup_r _ _ _ _ _ Hl Hmd) as (layer' & Hs & Hok).
  apply lookup_seq in Hs as [-> _]. done.
Qed.

Lemma setup_matrices_by_layer_lookup_dict ms ds layer d :
  setup_matrices_by_layer set_list code_ids translation_dict max_layer
    include_duplicates = Ok (ms, ds) →
  ds !! layer = Some d →
  ∃ m, ms !! layer = Some m ∧ setup_layer set_list code_ids translation_dict max_layer
    include_duplicates layer = Ok (m, d).
Proof.
  intros Hs Hd. pose proof Hs as (_ & Hms & Hds)%setup_matrices_by_layer_Ok.
  pose proof (lookup_lt_Some _ _ _ Hd) as Hlt.
  destruct (lookup_lt_is_Some_2 ms layer) as [m Hm]; [lia|].
  destruct (setup_matrices_by_layer_lookup _ _ _ _ Hs Hm) as (d' & Hd' & Hl & _).
  exists m. split; [done|]. congruence.
Qed.

Lemma emit_Ok layer d cr t :
  emit translation_dict max_layer include_duplicates layer d cr = Ok t →
  ∃ ancestor,
    ancestor_of translation_dict cr.1 layer = Ok ancestor ∧
    t.1.1 = cr.2 ∧ d !! ancestor = Some t.1.2 ∧
    edge_val translation_dict max_layer include_duplicates layer cr.1 ancestor
      = Ok t.2.
Proof.
  unfold emit.
  intros (ancestor & Ha & (col & Hc%dict_get_Ok & Hv)%bind_Ok)%bind_Ok.
  apply bind_Ok in Hv as (v & Hv & [= <-]). by exists ancestor.
Qed.

(** What [toarray] reads back where a single entry was emitted. *)
Lemma toarray_single (m : csr) (r c : nat) (v : Z) :
  NoDup (coo m).*1.*1 → (r, c, v) ∈ coo m → toarray m r c = v.
Proof.
  unfold toarray. induction (coo m) as [|t l IH]; simpl.
  - by intros _ ?%elem_of_nil.
  - intros [Hnotin Hnd]%NoDup_cons [Heq|Hin]%elem_of_cons; simpl.
    + subst t. simpl in *. rewrite decide_True by done.
      assert (Zsum (map (λ t : nat * nat * Z,
        if decide (t.1.1 = r ∧ t.1.2 = c) then t.2 else 0%Z) l) = 0%Z) as ->; [|lia].
      clear IH Hnd. induction l as [|t l IH]; [done|]. simpl in *.
      apply not_elem_of_cons in Hnotin as [Hne Hnotin].
      rewrite decide_False by (by intros [? _]). by rewrite IH.
    + rewrite decide_False; [by rewrite IH|].
      intros [Hr _]. apply Hnotin. rewrite Hr.
      apply list_elem_of_fmap. exists (r, c). split; [done|].
      apply list_elem_of_fmap. by exists (r, c, v).
Qed.

Lemma edge_val_keeping layer code ancestor v :
  include_duplicates = true ∨ Z.of_nat layer = (max_layer - 2)%Z →
  edge_val translation_dict max_layer include_duplicates layer code ancestor
    = Ok v →
  v = 1%Z.
Proof.
  unfold edge_val. intros [Hincl|Heq] Hv.
  - rewrite Hincl in Hv. by injection Hv.
  - apply Z.eqb_eq in Heq. rewrite Heq, orb_true_r in Hv. by injection Hv.
Qed.

Lemma edge_val_suppressing layer code ancestor v :
  include_duplicates = false → Z.of_nat layer ≠ (max_layer - 2)%Z →
  edge_val translation_dict max_layer include_duplicates layer code ancestor
    = Ok v →
  ∃ double_ancestor,
    ancestor_of translation_dict ancestor layer = Ok double_ancestor ∧
    v = if decide (double_ancestor = code) then 0%Z else 1%Z.
Proof.
  unfold edge_val. intros Hincl Hne Hv. apply Z.eqb_neq in Hne.
  rewrite Hincl, Hne in Hv. simpl in Hv.
  apply bind_Ok in Hv as (double_ancestor & Hdouble & [= <-]).
  exists double_ancestor. split; [done|].
  case_decide; [by rewrite bool_decide_eq_true_2|by rewrite bool_decide_eq_false_2].
Qed.

Lemma emit_rows layer d (triples : list (nat * nat * Z)) :
  Forall2 (λ leaf t, emit translation_dict max_layer include_duplicates
                       layer d leaf = Ok t) code_ids triples →
  triples.*1.*1 = code_ids.*2.
Proof.
  induction 1 as [|cr t l k Ht _ IH]; [done|].
  apply emit_Ok in Ht as (_ & _ & Hr & _). rewrite !fmap_cons. by f_equal.
Qed.

(** The triples of a returned matrix are the ones emitted for the leaves,
    in the order of [code_ids]. *)
Lemma setup_emitted ms ds layer m :
  setup_matrices_by_layer set_list code_ids translation_dict max_layer
    include_duplicates = Ok (ms, ds) →
  ms !! layer = Some m →
  ∃ d, ds !! layer = Some d ∧
    Forall2 (λ leaf t, emit translation_dict max_layer include_duplicates
                         layer d leaf = Ok t) code_ids (coo m) ∧
    (coo m).*1.*1 = code_ids.*2.
Proof.
  intros Hs Hm.
  destruct (setup_matrices_by_layer_lookup _ _ _ _ Hs Hm) as (d & Hd & Hl & _).
  exists d. split; [done|].
  apply setup_layer_Ok in Hl as (_ & _ & _ & Hemit & _).
  split; [done|]. by eapply emit_rows.
Qed.

(** C1: in the transition matrix of layer [layer], the entry emitted for a
    leaf [code] at (index of the leaf, index of its ancestor) is 1 when
    [include_duplicates] is true or [layer = max_layer - 2]; otherwise it
    is 0 when the ancestor's own ancestor at [layer] is [code] and 1 when
    it is another code.  With distinct leaf indices this emitted value is
    the entry of the matrix at that position. *)
Theorem emitted_entry_value ms ds layer m :
  setup_matrices_by_layer set_list code_ids translation_dict max_layer
    include_duplicates = Ok (ms, ds) →
  ms !! layer = Some m →
  ∃ d, ds !! layer = Some d ∧
    Forall2 (λ (leaf : Code * nat) (t : nat * nat * Z),
      ∃ ancestor,
        ancestor_of translation_dict leaf.1 layer = Ok ancestor ∧
        t.1.1 = leaf.2 ∧ d !! ancestor = Some t.1.2 ∧
        (include_duplicates = true ∨ Z.of_nat layer = (max_layer - 2)%Z →
           t.2 = 1%Z) ∧
        (include_duplicates = false → Z.of_nat layer ≠ (max_layer - 2)%Z →
           ∃ double_ancestor,
             ancestor_of translation_dict ancestor layer = Ok double_ancestor ∧
             (double_ancestor = leaf.1 → t.2 = 0%Z) ∧
             (double_ancestor ≠ leaf.1 → t.2 = 1%Z)) ∧
        (NoDup code_ids.*2 → toarray m t.1.1 t.1.2 = t.2))
      code_ids (coo m).
Proof.
  intros Hs Hm.
  destruct (setup_emitted _ _ _ _ Hs Hm) as (d & Hd & Hemit & Hrows).
  exists d. split; [done|].
  apply Forall2_same_length_lookup. split; [by eapply Forall2_length|].
  intros i leaf t Hleaf Ht.
  pose proof (Forall2_lookup_lr _ _ _ _ _ _ Hemit Hleaf Ht) as He.
  apply emit_Ok in He as (ancestor & Ha & Hrow & Hcol & Hv).
  exists ancestor. repeat split; try done.
  - intros Hkeep. by eapply edge_val_keeping.
  - intros Hincl Hne.
    destruct (edge_val_suppressing _ _ _ _ Hincl Hne Hv) as (double & Hd2 & ->).
    exists double. split; [done|]. split; intros ?; by case_decide.
  - intros Hnd. apply toarray_single; [by rewrite Hrows|].
    destruct t as [[r c] v]. by eapply list_elem_of_lookup_2.
Qed.

(** *** Sums of indicator values *)

Lemma Zsum_map_add {A} (f g : A → Z) (l : list A) :
  Zsum (map (λ x, f x + g x)%Z l) = (Zsum (map f l) + Zsum (map g l))%Z.
Proof. induction l as [|x l IH]; simpl; [done|]. rewrite IH. lia. Qed.

Lemma Zsum_map_zero {A} (l : list A) : Zsum (map (λ _, 0%Z) l) = 0%Z.
Proof. induction l as [|x l IH]; simpl; [done|]. by rewrite IH. Qed.

Lemma Zsum_Permutation (l k : list Z) : l ≡ₚ k → Zsum l = Zsum k.
Proof. induction 1; simpl; lia. Qed.

Lemma Zsum_indicator (c : nat) (v : Z) (s n : nat) :
  Zsum (map (λ j, if decide (j = c) then v else 0%Z) (seq s n))
  = if decide (s ≤ c < s + n) then v else 0%Z.
Proof.
  revert s. induction n as [|n IH]; intros s; simpl.
  - by rewrite decide_False by lia.
  - rewrite IH. repeat case_decide; lia.
Qed.

(** The sum of a row is the sum of the values emitted for that row. *)
Lemma row_sum_coo (m : csr) (i : nat) :
  Forall (λ c, c < (shape m).2) (coo m).*1.*2 →
  row_sum m i
  = Zsum (map (λ t : nat * nat * Z, if decide (t.1.1 = i) then t.2 else 0%Z)
              (coo m)).
Proof.
  unfold row_sum, toarray. generalize (shape m).2 as M. intros M.
  induction (coo m) as [|t l IH]; simpl; intros Hcols.
  - apply Zsum_map_zero.
  - apply Forall_cons in Hcols as [Ht Hcols].
    rewrite Zsum_map_add, IH by done. f_equal.
    destruct (decide (t.1.1 = i)) as [Hi|Hi].
    + rewrite (map_ext _ (λ j, if decide (j = t.1.2) then t.2 else 0%Z)).
      * rewrite Zsum_indicator. by rewrite decide_True by lia.
      * intros j. repeat case_decide; intuition congruence.
    + rewrite (map_ext _ (λ _, 0%Z)); [apply Zsum_map_zero|].
      intros j. by rewrite decide_False by (by intros [? _]).
Qed.

(** C7: with [include_duplicates = True] and a leaf map that numbers the
    leaves 0 to N-1, every row of every returned transition matrix sums
    to 1. *)
Theorem row_sums_one ms ds m i :
  dense_index_map code_ids →
  include_duplicates = true →
  setup_matrices_by_layer set_list code_ids translation_dict max_layer
    include_duplicates = Ok (ms, ds) →
  m ∈ ms →
  (shape m).1 = length code_ids ∧ (i < (shape m).1 → row_sum m i = 1%Z).
Proof.
  intros [_ Hperm] Hincl Hs [layer Hm]%list_elem_of_lookup.
  destruct (setup_matrices_by_layer_lookup _ _ _ _ Hs Hm) as (d & _ & Hl & _).
  apply setup_layer_Ok in Hl as (_ & _ & _ & Hemit & Hshape & _ & Hcols).
  rewrite Hshape at 1 2. simpl. split; [done|]. intros Hi.
  rewrite row_sum_coo by done.
  assert (map (λ t : nat * nat * Z, if decide (t.1.1 = i) then t.2 else 0%Z)
              (coo m)
          = map (λ r, if decide (r = i) then 1%Z else 0%Z) code_ids.*2) as ->.
  { clear -Hemit Hincl. induction Hemit as [|leaf t l k Ht _ IH]; [done|].
    apply emit_Ok in Ht as (anc & _ & Hr & _ & Hv).
    unfold edge_val in Hv. rewrite Hincl in Hv. injection Hv as Hv.
    rewrite fmap_cons. simpl. f_equal; [by rewrite Hr, <- Hv|exact IH]. }
  rewrite (Zsum_Permutation _
    (map (λ r, if decide (r = i) then 1%Z else 0%Z) (seq 0 (length code_ids)))).
  - rewrite Zsum_indicator. by rewrite decide_True by lia.
  - by apply Permutation_map.
Qed.

(** *** The id dictionary of a layer *)

Lemma elem_of_zip_seq {A} (l : list A) (a : A) (j : nat) :
  (a, j) ∈ zip l (seq 0 (length l)) ↔ l !! j = Some a.
Proof.
  rewrite list_elem_of_lookup. split.
  - intros [i Hi]. apply lookup_zip_with_Some in Hi as (a' & j' & [= <- <-] & Ha & Hj).
    by apply lookup_seq in Hj as [-> _].
  - intros Ha. exists j. apply lookup_zip_with_Some. exists a, j.
    split; [done|]. split; [done|].
    apply lookup_seq. split; [done|]. by eapply lookup_lt_Some.
Qed.

Lemma make_layer_id_dict_lookup (X : gset Code) (a : Code) (j : nat) :
  make_layer_id_dict set_list X !! a = Some j ↔ set_list X !! j = Some a.
Proof.
  unfold make_layer_id_dict. rewrite <- elem_of_zip_seq.
  symmetry. apply elem_of_list_to_map.
  rewrite fst_zip; [apply set_list_NoDup|]. by rewrite length_seq.
Qed.

Lemma layer_ancestors_elem layer ancestors a :
  layer_ancestors code_ids translation_dict layer = Ok ancestors →
  a ∈ ancestors ↔
  ∃ leaf, leaf ∈ code_ids ∧ ancestor_of translation_dict leaf.1 layer = Ok a.
Proof.
  unfold layer_ancestors. intros Hl%mapM_Ok. split.
  - intros [i Hi]%list_elem_of_lookup.
    destruct (Forall2_lookup_r _ _ _ _ _ Hl Hi) as (leaf & Hleaf & Ha).
    exists leaf. split; [by eapply list_elem_of_lookup_2|done].
  - intros (leaf & [i Hi]%list_elem_of_lookup & Ha).
    destruct (Forall2_lookup_l _ _ _ _ _ Hl Hi) as (a' & Ha' & Hleaf).
    assert (a' = a) as -> by congruence. by eapply list_elem_of_lookup_2.
Qed.

(** C9 (what the code returns): the dictionary of a layer is keyed by the
    ancestor codes of that layer; it sends each distinct ancestor to its
    position in the enumeration of the set of ancestors, so it is a map
    from code to index and not from index to code. *)
Theorem layer_id_dict_code_to_index ms ds layer (d : gmap Code nat) :
  setup_matrices_by_layer set_list code_ids translation_dict max_layer
    include_duplicates = Ok (ms, ds) →
  ds !! layer = Some d →
  ∃ codes : list Code,
    NoDup codes ∧
    (∀ a, a ∈ codes ↔
          ∃ leaf, leaf ∈ code_ids ∧
                  ancestor_of translation_dict leaf.1 layer = Ok a) ∧
    (∀ a j, d !! a = Some j ↔ codes !! j = Some a).
Proof.
  intros Hs Hd.
  destruct (setup_matrices_by_layer_lookup_dict _ _ _ _ Hs Hd) as (m & _ & Hl).
  apply setup_layer_Ok in Hl as (ancestors & Hanc & -> & _).
  exists (set_list (list_to_set ancestors)). split; [apply set_list_NoDup|].
  split.
  - intros a. rewrite elem_of_set_list, elem_of_list_to_set.
    by apply layer_ancestors_elem.
  - apply make_layer_id_dict_lookup.
Qed.

(** *** Duplicate suppression *)

(** C8 (amended): with distinct leaf indices, [include_duplicates = False]
    and [layer ≠ max_layer - 2], the entry for a leaf and its ancestor at
    [layer] is 0 exactly when the ancestor's own parents list, read at the
    same position [layer], holds the code of the leaf. *)
Theorem suppressed_iff_same_layer ms ds layer m leaf ancestor :
  NoDup code_ids.*2 →
  include_duplicates = false →
  setup_matrices_by_layer set_list code_ids translation_dict max_layer
    include_duplicates = Ok (ms, ds) →
  ms !! layer = Some m →
  Z.of_nat layer ≠ (max_layer - 2)%Z →
  leaf ∈ code_ids →
  ancestor_of translation_dict leaf.1 layer = Ok ancestor →
  ∃ d col,
    ds !! layer = Some d ∧ d !! ancestor = Some col ∧
    (toarray m leaf.2 col = 0%Z ↔
     ancestor_of translation_dict ancestor layer = Ok leaf.1).
Proof.
  intros Hnd Hincl Hs Hm Hlayer [i Hleaf]%list_elem_of_lookup Hanc.
  destruct (setup_emitted _ _ _ _ Hs Hm) as (d & Hd & Hemit & Hrows).
  destruct (Forall2_lookup_l _ _ _ _ _ Hemit Hleaf) as (t & Ht & He).
  apply emit_Ok in He as (anc & Hanc' & Hrow & Hcol & Hv).
  assert (anc = ancestor) as -> by congruence.
  destruct (edge_val_suppressing _ _ _ _ Hincl Hlayer Hv) as (double & Hdouble & Hval).
  exists d, t.1.2. split; [done|]. split; [done|].
  rewrite <- Hrow, (toarray_single m t.1.1 t.1.2 t.2), Hdouble, Hval.
  - case_decide as Heq; [by rewrite Heq|]. split; [done|]. by intros [= ?].
  - by rewrite Hrows.
  - destruct t as [[r c] v]. by eapply list_elem_of_lookup_2.
Qed.

(** *** Exceptions of [setup_matrices_by_layer] *)

Lemma NoDup_lt_length (l : list nat) (n : nat) :
  NoDup l → (∀ x, x ∈ l ↔ x < n) → length l = n.
Proof.
  intros Hnd Hl. transitivity (length (seq 0 n)); [|apply length_seq].
  apply Permutation_length.
  apply NoDup_Permutation; [done|apply NoDup_seq|].
  intros x. rewrite Hl, elem_of_seq. lia.
Qed.

Lemma edge_val_Raise layer code ancestor e :
  edge_val translation_dict max_layer include_duplicates layer code ancestor
    = Raise e →
  LookupError e.
Proof.
  unfold edge_val. case (_ || _); [discriminate|].
  intros [Hr|(a & _ & [=])]%bind_Raise. by eapply ancestor_of_Raise.
Qed.

Lemma emit_Raise layer d leaf e :
  emit translation_dict max_layer include_duplicates layer d leaf = Raise e →
  LookupError e.
Proof.
  unfold emit. intros [Hr|(anc & _ & Hr)]%bind_Raise.
  { by eapply ancestor_of_Raise. }
  apply bind_Raise in Hr as [Hr|(col & _ & Hr)].
  { unfold dict_get in Hr. destruct (d !! anc); [done|]. injection Hr as <-. by left. }
  apply bind_Raise in Hr as [Hr|(v & _ & [=])]. by eapply edge_val_Raise.
Qed.

(** The column indices emitted for a layer are exactly the indices below
    the number of distinct ancestors, so they fit the shape passed to
    [csr_matrix]. *)
Lemma emitted_cols_fit layer ancestors triples :
  layer_ancestors code_ids translation_dict layer = Ok ancestors →
  Forall2 (λ leaf t,
             emit translation_dict max_layer include_duplicates layer
               (make_layer_id_dict set_list (list_to_set ancestors))
                   leaf = Ok t) code_ids triples →
  Forall (λ c, c < length (remove_dups triples.*1.*2)) triples.*1.*2.
Proof.
  intros Hanc Hemit.
  set (codes := set_list (list_to_set ancestors)).
  assert (∀ c, c ∈ triples.*1.*2 ↔ c < length codes) as Hcols.
  { intros c. split.
    - intros ([r c'] & -> & ([rc v] & -> & [i Hi]%list_elem_of_lookup)%list_elem_of_fmap)%list_elem_of_fmap.
      destruct (Forall2_lookup_r _ _ _ _ _ Hemit Hi) as (leaf & _ & He).
      apply emit_Ok in He as (anc & _ & _ & Hcol & _).
      apply make_layer_id_dict_lookup in Hcol. by eapply lookup_lt_Some.
    - intros Hc. destruct (lookup_lt_is_Some_2 codes c Hc) as [a Ha].
      assert (a ∈ ancestors) as Hin.
      { apply (elem_of_list_to_set (C := gset Code)), elem_of_set_list.
        by eapply list_elem_of_lookup_2. }
      apply (layer_ancestors_elem _ _ _ Hanc) in Hin
        as (leaf & [i Hi]%list_elem_of_lookup & Hleaf).
      destruct (Forall2_lookup_l _ _ _ _ _ Hemit Hi) as (t & Ht & He).
      apply emit_Ok in He as (anc & Hanc' & _ & Hcol & _).
      assert (anc = a) as -> by congruence.
      apply make_layer_id_dict_lookup in Hcol. fold codes in Hcol.
      assert (t.1.2 = c) as <-.
      { eapply NoDup_lookup; [apply set_list_NoDup|done..]. }
      apply list_elem_of_fmap. exists t.1. split; [done|].
      apply list_elem_of_fmap. exists t. split; [done|].
      by eapply list_elem_of_lookup_2. }
  rewrite (NoDup_lt_length (remove_dups triples.*1.*2) (length codes)).
  - apply Forall_forall. intros c. apply Hcols.
  - apply NoDup_remove_dups.
  - intros c. rewrite elem_of_remove_dups. apply Hcols.
Qed.

(** With leaf indices inside the range, a layer can only fail on a
    lookup. *)
Lemma setup_layer_Raise layer e :
  Forall (λ leaf : Code * nat, leaf.2 < length code_ids) code_ids →
  setup_layer set_list code_ids translation_dict max_layer
    include_duplicates layer = Raise e → LookupError e.
Proof.
  intros Hrange. unfold setup_layer.
  intros [Hr|(ancestors & Hanc & Hr)]%bind_Raise.
  { apply mapM_Raise in Hr as (leaf & _ & Hr). by eapply ancestor_of_Raise. }
  apply bind_Raise in Hr as [Hr|(triples & Htr & Hr)].
  { apply mapM_Raise in Hr as (leaf & _ & Hr). by eapply emit_Raise. }
  apply bind_Raise in Hr as [Hr|(m & _ & [=])].
  exfalso. apply mapM_Ok in Htr.
  unfold csr_matrix in Hr. simpl in Hr.
  assert (forallb (λ r, (r <? length triples.*1.*1)%nat) triples.*1.*1 = true)
    as Hrows.
  { rewrite (emit_rows _ _ _ Htr), length_fmap.
    apply forallb_forall. intros r Hr'%list_elem_of_In. apply Nat.ltb_lt.
    apply list_elem_of_fmap in Hr' as (leaf & -> & Hleaf).
    by eapply (proj1 (Forall_forall _ _) Hrange). }
  assert (forallb (λ c, (c <? length (remove_dups triples.*1.*2))%nat)
                  triples.*1.*2 = true) as Hcols.
  { apply forallb_forall. intros c Hc%list_elem_of_In. apply Nat.ltb_lt.
    pose proof (emitted_cols_fit _ _ _ Hanc Htr) as Hfit.
    by eapply (proj1 (Forall_forall _ _) Hfit). }
  rewrite Hrows, Hcols in Hr. done.
Qed.

(** C10: when [include_duplicates] is false and [layer] is a requested
    layer other than [max_layer - 2], the code of each layer-[layer]
    ancestor is itself looked up in [translation_dict]; if one of them is
    not a key with a parents list longer than [layer], the call raises a
    [LookupError] (leaf indices are taken inside the range, so that no
    [ValueError] of the matrix constructor comes first). *)
Theorem ancestor_must_be_key layer leaf ancestor :
  include_duplicates = false →
  Forall (λ leaf : Code * nat, leaf.2 < length code_ids) code_ids →
  layer < Z.to_nat max_layer →
  Z.of_nat layer ≠ (max_layer - 2)%Z →
  leaf ∈ code_ids →
  ancestor_of translation_dict leaf.1 layer = Ok ancestor →
  ¬ (∃ e, translation_dict !! ancestor = Some e ∧ layer < length (parents e)) →
  ∃ e, setup_matrices_by_layer set_list code_ids translation_dict max_layer
         include_duplicates = Raise e ∧ LookupError e.
Proof.
  intros Hincl Hrange Hlt Hne Hleaf Hanc Hmissing.
  assert (∀ md, setup_layer set_list code_ids translation_dict max_layer
    include_duplicates layer ≠ Ok md) as Hfail.
  { intros [m d] Hl. apply setup_layer_Ok in Hl as (_ & _ & _ & Hemit & _).
    apply list_elem_of_lookup in Hleaf as [i Hi].
    destruct (Forall2_lookup_l _ _ _ _ _ Hemit Hi) as (t & _ & He).
    apply emit_Ok in He as (anc & Hanc' & _ & _ & Hv).
    assert (anc = ancestor) as -> by congruence.
    destruct (edge_val_suppressing _ _ _ _ Hincl Hne Hv) as (double & Hd & _).
    apply ancestor_of_Ok in Hd as (en & Hen & Hp).
    apply Hmissing. exists en. split; [done|]. by eapply lookup_lt_Some. }
  unfold setup_matrices_by_layer.
  destruct (mapM (setup_layer set_list code_ids translation_dict max_layer
                    include_duplicates)
              (seq 0 (Z.to_nat max_layer))) as [layers|e] eqn:Hm.
  - exfalso. assert (layer ∈ seq 0 (Z.to_nat max_layer)) as Hin.
    { apply elem_of_seq. lia. }
    destruct (mapM_Ok_elem _ _ _ _ Hm Hin) as (md & Hmd & _).
    by eapply Hfail.
  - exists e. split; [done|].
    apply mapM_Raise in Hm as (layer' & _ & Hr).
    by eapply setup_layer_Raise.
Qed.

(** *** Further properties of [setup_matrices_by_layer] *)

Lemma mapM_all_Ok {A B} (f : A → result B) (l : list A) :
  (∀ x, x ∈ l → ∃ y, f x = Ok y) → ∃ k, mapM f l = Ok k.
Proof.
  intros Hf. destruct (mapM f l) as [k|e] eqn:Hl; [by exists k|].
  apply mapM_Raise in Hl as (x & Hx & Hr).
  destruct (Hf x Hx) as (y & Hy). congruence.
Qed.

(** The columns emitted for a layer are the indices of the enumeration of
    its distinct ancestors. *)
Lemma emitted_cols_iff layer ancestors (triples : list (nat * nat * Z)) c :
  layer_ancestors code_ids translation_dict layer = Ok ancestors →
  Forall2 (λ leaf t,
             emit translation_dict max_layer include_duplicates layer
               (make_layer_id_dict set_list (list_to_set ancestors))
               leaf = Ok t) code_ids triples →
  (∃ t, t ∈ triples ∧ t.1.2 = c)
  ↔ c < length (set_list (list_to_set ancestors)).
Proof.
  intros Hanc Hemit. set (codes := set_list (list_to_set ancestors)). split.
  - intros (t & [i Hi]%list_elem_of_lookup & <-).
    destruct (Forall2_lookup_r _ _ _ _ _ Hemit Hi) as (leaf & _ & He).
    apply emit_Ok in He as (anc & _ & _ & Hcol & _).
    apply make_layer_id_dict_lookup in Hcol. by eapply lookup_lt_Some.
  - intros Hc. destruct (lookup_lt_is_Some_2 codes c Hc) as [a Ha].
    assert (a ∈ ancestors) as Hin.
    { apply (elem_of_list_to_set (C := gset Code)), elem_of_set_list.
      by eapply list_elem_of_lookup_2. }
    apply (layer_ancestors_elem _ _ _ Hanc) in Hin
      as (leaf & [i Hi]%list_elem_of_lookup & Hleaf).
    destruct (Forall2_lookup_l _ _ _ _ _ Hemit Hi) as (t & Ht & He).
    apply emit_Ok in He as (anc & Hanc' & _ & Hcol & _).
    assert (anc = a) as -> by congruence.
    apply make_layer_id_dict_lookup in Hcol. fold codes in Hcol.
    exists t. split; [by eapply list_elem_of_lookup_2|].
    eapply NoDup_lookup; [apply set_list_NoDup|done..].
Qed.

Lemma emitted_cols_count layer ancestors (triples : list (nat * nat * Z)) :
  layer_ancestors code_ids translation_dict layer = Ok ancestors →
  Forall2 (λ leaf t,
             emit translation_dict max_layer include_duplicates layer
               (make_layer_id_dict set_list (list_to_set ancestors))
               leaf = Ok t) code_ids triples →
  length (remove_dups triples.*1.*2)
  = length (set_list (list_to_set ancestors)).
Proof.
  intros Hanc Hemit. apply NoDup_lt_length; [apply NoDup_remove_dups|].
  intros c. rewrite elem_of_remove_dups.
  rewrite <- (emitted_cols_iff _ _ _ c Hanc Hemit). split.
  - intros ([r c'] & -> & (t & -> & Ht)%list_elem_of_fmap)%list_elem_of_fmap.
    by exists t.
  - intros (t & Ht & <-). apply list_elem_of_fmap. exists t.1.
    split; [done|]. apply list_elem_of_fmap. by exists t.
Qed.

Lemma make_layer_id_dict_size (X : gset Code) :
  size (make_layer_id_dict set_list X) = length (set_list X).
Proof.
  unfold make_layer_id_dict. rewrite map_size_list_to_map.
  - by rewrite length_zip_with, length_seq, Nat.min_id.
  - rewrite fst_zip; [apply set_list_NoDup|]. by rewrite length_seq.
Qed.

(** X1: a successful call returns one matrix and one dictionary per
    requested layer; for [max_layer <= 0] the loop body never runs and the
    call returns two empty lists, whatever the other arguments are. *)
Theorem setup_output_lengths :
  ((max_layer ≤ 0)%Z →
   setup_matrices_by_layer set_list code_ids translation_dict max_layer
     include_duplicates = Ok ([], [])) ∧
  (∀ ms ds,
     setup_matrices_by_layer set_list code_ids translation_dict max_layer
       include_duplicates = Ok (ms, ds) →
     length ms = Z.to_nat max_layer ∧ length ds = Z.to_nat max_layer).
Proof.
  split.
  - intros Hle. unfold setup_matrices_by_layer.
    replace (Z.to_nat max_layer) with 0 by lia. done.
  - intros ms ds Hs. by apply setup_matrices_by_layer_Ok in Hs as (_ & ? & ?).
Qed.

(** X2: the matrix of a layer has one row per leaf and one column per
    distinct ancestor of that layer, and the dictionary of the layer numbers
    these ancestors with the dense indices 0 to M-1, each used once. *)
Theorem layer_shape_and_indices ms ds layer m (d : gmap Code nat) :
  setup_matrices_by_layer set_list code_ids translation_dict max_layer
    include_duplicates = Ok (ms, ds) →
  ms !! layer = Some m → ds !! layer = Some d →
  shape m = (length code_ids, size d) ∧
  (∀ a, is_Some (d !! a) ↔
        ∃ leaf, leaf ∈ code_ids ∧
                ancestor_of translation_dict leaf.1 layer = Ok a) ∧
  (∀ a j, d !! a = Some j → j < size d) ∧
  (∀ a b j, d !! a = Some j → d !! b = Some j → a = b) ∧
  (∀ j, j < size d → ∃ a, d !! a = Some j).
Proof.
  intros Hs Hm Hd.
  destruct (setup_matrices_by_layer_lookup _ _ _ _ Hs Hm) as (d' & Hd' & Hl & _).
  assert (d' = d) as -> by congruence.
  apply setup_layer_Ok in Hl as (ancestors & Hanc & -> & Hemit & Hshape & _).
  rewrite make_layer_id_dict_size.
  split; [|split; [|split; [|split]]].
  - rewrite Hshape. f_equal. by eapply emitted_cols_count.
  - intros a. rewrite <- (layer_ancestors_elem _ _ a Hanc).
    rewrite <- (elem_of_list_to_set (C := gset Code)), <- elem_of_set_list.
    rewrite list_elem_of_lookup. unfold is_Some.
    by setoid_rewrite make_layer_id_dict_lookup.
  - intros a j Hj%make_layer_id_dict_lookup. by eapply lookup_lt_Some.
  - intros a b j Ha%make_layer_id_dict_lookup Hb%make_layer_id_dict_lookup.
    congruence.
  - intros j Hj. destruct (lookup_lt_is_Some_2 _ _ Hj) as [a Ha].
    exists a. by apply make_layer_id_dict_lookup.
Qed.

(** X3: no column of a transition matrix is empty: every column index below
    the number of columns is the column of the entry of some leaf. *)
Theorem every_column_has_a_leaf ms ds layer m j :
  setup_matrices_by_layer set_list code_ids translation_dict max_layer
    include_duplicates = Ok (ms, ds) →
  ms !! layer = Some m → j < (shape m).2 →
  ∃ leaf t, leaf ∈ code_ids ∧ t ∈ coo m ∧ t.1.1 = leaf.2 ∧ t.1.2 = j.
Proof.
  intros Hs Hm Hj.
  destruct (setup_matrices_by_layer_lookup _ _ _ _ Hs Hm) as (d & _ & Hl & _).
  apply setup_layer_Ok in Hl as (ancestors & Hanc & -> & Hemit & Hshape & _).
  rewrite Hshape in Hj. simpl in Hj.
  rewrite (emitted_cols_count _ _ _ Hanc Hemit) in Hj.
  apply (emitted_cols_iff _ _ _ j Hanc Hemit) in Hj
    as (t & [i Hi]%list_elem_of_lookup & Hc).
  destruct (Forall2_lookup_r _ _ _ _ _ Hemit Hi) as (leaf & Hleaf & He).
  apply emit_Ok in He as (_ & _ & Hrow & _).
  exists leaf, t. repeat split; try done; by eapply list_elem_of_lookup_2.
Qed.

(** *** Where the exceptions of [setup_matrices_by_layer] come from *)

Lemma ancestor_of_Raise_iff td code layer e :
  ancestor_of td code layer = Raise e ↔
  (td !! code = None ∧ e = KeyError) ∨
  (∃ en, td !! code = Some en ∧ (length (parents en) ≤ layer)%nat ∧ e = IndexError).
Proof.
  unfold ancestor_of, dict_get, list_get.
  destruct (td !! code) as [en|]; simpl.
  - destruct (parents en !! layer) as [a|] eqn:Ha.
    + apply lookup_lt_Some in Ha. split; [done|].
      intros [[? _]|(en' & [= <-] & ? & _)]; [done|lia].
    + apply lookup_ge_None in Ha. split.
      * intros [= <-]. right. by exists en.
      * intros [[? _]|(_ & _ & _ & ->)]; done.
  - split.
    + intros [= <-]. by left.
    + intros [[_ ->]|(? & ? & _)]; done.
Qed.

Lemma edge_val_Raise_inv layer code ancestor e :
  edge_val translation_dict max_layer include_duplicates layer code ancestor
    = Raise e →
  include_duplicates = false ∧ Z.of_nat layer ≠ (max_layer - 2)%Z ∧
  ancestor_of translation_dict ancestor layer = Raise e.
Proof.
  unfold edge_val. destruct include_duplicates; [done|].
  destruct (Z.of_nat layer =? max_layer - 2)%Z eqn:Hl; [done|].
  apply Z.eqb_neq in Hl. simpl.
  intros [Hr|(a & _ & [=])]%bind_Raise. done.
Qed.

Lemma csr_matrix_Raise vals rows cols shp e :
  csr_matrix vals rows cols shp = Raise e → e = ValueError.
Proof. unfold csr_matrix. case (_ && _); [done|]. by intros [= <-]. Qed.

Lemma setup_layer_Raise_inv layer e :
  setup_layer set_list code_ids translation_dict max_layer
    include_duplicates layer = Raise e →
  ∃ leaf, leaf ∈ code_ids ∧
    (ancestor_of translation_dict leaf.1 layer = Raise e ∨
     (include_duplicates = false ∧ Z.of_nat layer ≠ (max_layer - 2)%Z ∧
      ∃ ancestor,
        ancestor_of translation_dict leaf.1 layer = Ok ancestor ∧
        ancestor_of translation_dict ancestor layer = Raise e) ∨
     (e = ValueError ∧ (length code_ids ≤ leaf.2)%nat)).
Proof.
  intros Hraise.
  destruct (decide (Forall (λ leaf : Code * nat, leaf.2 < length code_ids)
                           code_ids)) as [Hrange|Hrange].
  - pose proof (setup_layer_Raise _ _ Hrange Hraise) as Hlookup.
    unfold setup_layer in Hraise.
    apply bind_Raise in Hraise as [Hr|(ancestors & Hanc & Hr)].
    { apply mapM_Raise in Hr as (leaf & Hleaf & Hr). exists leaf. auto. }
    apply bind_Raise in Hr as [Hr|(triples & Htr & Hr)].
    + apply mapM_Raise in Hr as (leaf & Hleaf & Hr). exists leaf.
      split; [done|]. unfold emit in Hr.
      apply bind_Raise in Hr as [Hr|(anc & Ha & Hr)]; [by left|].
      apply bind_Raise in Hr as [Hr|(col & _ & Hr)].
      * exfalso. unfold dict_get in Hr.
        assert (anc ∈ ancestors) as Hin.
        { apply (layer_ancestors_elem _ _ _ Hanc). by exists leaf. }
        apply (elem_of_list_to_set (C := gset Code)), elem_of_set_list,
          list_elem_of_lookup in Hin as [j Hj].
        apply make_layer_id_dict_lookup in Hj. by rewrite Hj in Hr.
      * apply bind_Raise in Hr as [Hr|(v & _ & [=])].
        apply edge_val_Raise_inv in Hr as (? & ? & ?).
        right. left. split; [done|]. split; [done|]. by exists anc.
    + apply bind_Raise in Hr as [Hr|(m & _ & [=])].
      apply csr_matrix_Raise in Hr as ->. by destruct Hlookup.
  - apply not_Forall_Exists in Hrange; [|apply _].
    apply Exists_exists in Hrange as (leaf & Hleaf & Hbig). simpl in Hbig.
    unfold setup_layer in Hraise.
    apply bind_Raise in Hraise as [Hr|(ancestors & Hanc & Hr)].
    { apply mapM_Raise in Hr as (leaf' & Hleaf' & Hr). exists leaf'. auto. }
    apply bind_Raise in Hr as [Hr|(triples & Htr & Hr)].
    + apply mapM_Raise in Hr as (leaf' & Hleaf' & Hr). exists leaf'.
      split; [done|]. unfold emit in Hr.
      apply bind_Raise in Hr as [Hr|(anc & Ha & Hr)]; [by left|].
      apply bind_Raise in Hr as [Hr|(col & _ & Hr)].
      * exfalso. unfold dict_get in Hr.
        assert (anc ∈ ancestors) as Hin.
        { apply (layer_ancestors_elem _ _ _ Hanc). by exists leaf'. }
        apply (elem_of_list_to_set (C := gset Code)), elem_of_set_list,
          list_elem_of_lookup in Hin as [j Hj].
        apply make_layer_id_dict_lookup in Hj. by rewrite Hj in Hr.
      * apply bind_Raise in Hr as [Hr|(v & _ & [=])].
        apply edge_val_Raise_inv in Hr as (? & ? & ?).
        right. left. split; [done|]. split; [done|]. by exists anc.
    + apply bind_Raise in Hr as [Hr|(m & _ & [=])].
      apply csr_matrix_Raise in Hr as ->.
      exists leaf. split; [done|]. right. right. split; [done|lia].
Qed.

(** X4: a call fails only for one of three reasons, found at some requested
    layer and some leaf: the leaf has no ancestor at that layer in
    [translation_dict]; or suppression is active at that layer and the
    ancestor of the leaf has itself no ancestor at that layer; or the index
    of the leaf is not below the number of leaves, which makes the matrix
    constructor raise a [ValueError]. *)
Theorem setup_failure_origin e :
  setup_matrices_by_layer set_list code_ids translation_dict max_layer
    include_duplicates = Raise e →
  ∃ layer leaf,
    layer < Z.to_nat max_layer ∧ leaf ∈ code_ids ∧
    (ancestor_of translation_dict leaf.1 layer = Raise e ∨
     (include_duplicates = false ∧ Z.of_nat layer ≠ (max_layer - 2)%Z ∧
      ∃ ancestor,
        ancestor_of translation_dict leaf.1 layer = Ok ancestor ∧
        ancestor_of translation_dict ancestor layer = Raise e) ∨
     (e = ValueError ∧ (length code_ids ≤ leaf.2)%nat)).
Proof.
  unfold setup_matrices_by_layer.
  intros [Hr|(layers & _ & [=])]%bind_Raise.
  apply mapM_Raise in Hr as (layer & Hlayer%elem_of_seq & Hr).
  apply setup_layer_Raise_inv in Hr as (leaf & Hleaf & Hcause).
  exists layer, leaf. split; [lia|]. done.
Qed.

Lemma setup_Ok_of_lookups :
  Forall (λ leaf : Code * nat, leaf.2 < length code_ids) code_ids →
  (∀ layer leaf, layer < Z.to_nat max_layer → leaf ∈ code_ids →
     ∃ ancestor,
       ancestor_of translation_dict leaf.1 layer = Ok ancestor ∧
       (include_duplicates = false → Z.of_nat layer ≠ (max_layer - 2)%Z →
        ∃ double_ancestor,
          ancestor_of translation_dict ancestor layer = Ok double_ancestor)) →
  ∃ ms ds,
    setup_matrices_by_layer set_list code_ids translation_dict max_layer
      include_duplicates = Ok (ms, ds).
Proof.
  intros Hrange Hlook.
  destruct (setup_matrices_by_layer set_list code_ids translation_dict
              max_layer include_duplicates) as [[ms ds]|e] eqn:Hs;
    [by exists ms, ds|].
  exfalso. unfold setup_matrices_by_layer in Hs.
  apply bind_Raise in Hs as [Hr|(layers & _ & [=])].
  apply mapM_Raise in Hr as (layer & Hlayer%elem_of_seq & Hr).
  apply setup_layer_Raise_inv in Hr as (leaf & Hleaf & Hcause).
  destruct (Hlook layer leaf) as (anc & Hanc & Hdouble); [lia|done|].
  destruct Hcause as [Hc|[(Hincl & Hne & anc' & Hanc' & Hc)|[_ Hbig]]].
  - congruence.
  - assert (anc' = anc) as -> by congruence.
    destruct (Hdouble Hincl Hne) as (dbl & Hdbl). congruence.
  - pose proof (proj1 (Forall_forall _ _) Hrange leaf Hleaf) as Hlt.
    simpl in Hlt. lia.
Qed.

(** X5: the call succeeds whenever the indices of the leaves are below the
    number of leaves, every leaf has an ancestor at every requested layer
    and, where suppression is active, that ancestor has itself an ancestor
    at the same layer. *)
Theorem setup_succeeds :
  Forall (λ leaf : Code * nat, leaf.2 < length code_ids) code_ids →
  (∀ layer leaf, layer < Z.to_nat max_layer → leaf ∈ code_ids →
     ∃ ancestor,
       ancestor_of translation_dict leaf.1 layer = Ok ancestor ∧
       (include_duplicates = false → Z.of_nat layer ≠ (max_layer - 2)%Z →
        ∃ double_ancestor,
          ancestor_of translation_dict ancestor layer = Ok double_ancestor)) →
  ∃ ms ds,
    setup_matrices_by_layer set_list code_ids translation_dict max_layer
      include_duplicates = Ok (ms, ds).
Proof. apply setup_Ok_of_lookups. Qed.

(** X6: when all the lookups of the call succeed and at least one layer is
    requested, a leaf index that is not below the number of leaves makes the
    call raise a [ValueError]. *)
Theorem index_out_of_range_raises leaf :
  (0 < max_layer)%Z →
  (∀ layer leaf, layer < Z.to_nat max_layer → leaf ∈ code_ids →
     ∃ ancestor,
       ancestor_of translation_dict leaf.1 layer = Ok ancestor ∧
       (include_duplicates = false → Z.of_nat layer ≠ (max_layer - 2)%Z →
        ∃ double_ancestor,
          ancestor_of translation_dict ancestor layer = Ok double_ancestor)) →
  leaf ∈ code_ids → (length code_ids ≤ leaf.2)%nat →
  setup_matrices_by_layer set_list code_ids translation_dict max_layer
    include_duplicates = Raise ValueError.
Proof.
  intros Hmax Hlook Hleaf Hbig.
  destruct (setup_matrices_by_layer set_list code_ids translation_dict
              max_layer include_duplicates) as [[ms ds]|e] eqn:Hs.
  - exfalso.
    pose proof Hs as (_ & Hlen & _)%setup_matrices_by_layer_Ok.
    destruct (lookup_lt_is_Some_2 ms 0) as [m Hm]; [lia|].
    destruct (setup_matrices_by_layer_lookup _ _ _ _ Hs Hm) as (d & _ & Hl & _).
    apply setup_layer_Ok in Hl as (_ & _ & _ & Hemit & Hshape & Hrows & _).
    rewrite (emit_rows _ _ _ Hemit), Hshape in Hrows. simpl in Hrows.
    assert (leaf.2 ∈ code_ids.*2) as Hin.
    { apply list_elem_of_fmap. by exists leaf. }
    pose proof (proj1 (Forall_forall _ _) Hrows _ Hin) as Hlt.
    simpl in Hlt. lia.
  - f_equal. unfold setup_matrices_by_layer in Hs.
    apply bind_Raise in Hs as [Hr|(layers & _ & [=])].
    apply mapM_Raise in Hr as (layer & Hlayer%elem_of_seq & Hr).
    apply setup_layer_Raise_inv in Hr as (leaf' & Hleaf' & Hcause).
    destruct (Hlook layer leaf') as (anc & Hanc & Hdouble); [lia|done|].
    destruct Hcause as [Hc|[(Hincl & Hne & anc' & Hanc' & Hc)|[-> _]]].
    + congruence.
    + assert (anc' = anc) as -> by congruence.
      destruct (Hdouble Hincl Hne) as (dbl & Hdbl). congruence.
    + done.
Qed.

(** *** Row sums under suppression *)

Lemma coo_row_value (l : list (nat * nat * Z)) (t : nat * nat * Z) :
  NoDup l.*1.*1 → t ∈ l →
  Zsum (map (λ t' : nat * nat * Z,
               if decide (t'.1.1 = t.1.1) then t'.2 else 0%Z) l) = t.2.
Proof.
  induction l as [|t0 l IH]; simpl.
  - by intros _ ?%elem_of_nil.
  - intros [Hnotin Hnd]%NoDup_cons [Heq|Hin]%elem_of_cons.
    + subst t0. rewrite decide_True by done.
      assert (Zsum (map (λ t' : nat * nat * Z,
                if decide (t'.1.1 = t.1.1) then t'.2 else 0%Z) l) = 0%Z)
        as ->; [|lia].
      clear IH Hnd. induction l as [|t1 l IH]; [done|]. simpl in *.
      apply not_elem_of_cons in Hnotin as [Hne Hnotin].
      rewrite decide_False by done. by rewrite IH.
    + rewrite decide_False; [by rewrite IH|].
      intros Hr. apply Hnotin. rewrite Hr.
      apply list_elem_of_fmap. exists t.1. split; [done|].
      apply list_elem_of_fmap. by exists t.
Qed.

Lemma row_sum_leaf_spec ms ds layer m leaf :
  dense_index_map code_ids →
  setup_matrices_by_layer set_list code_ids translation_dict max_layer
    include_duplicates = Ok (ms, ds) →
  ms !! layer = Some m → leaf ∈ code_ids →
  ∃ ancestor,
    ancestor_of translation_dict leaf.1 layer = Ok ancestor ∧
    (row_sum m leaf.2 = 0%Z ∨ row_sum m leaf.2 = 1%Z) ∧
    (include_duplicates = true ∨ Z.of_nat layer = (max_layer - 2)%Z →
     row_sum m leaf.2 = 1%Z) ∧
    (include_duplicates = false → Z.of_nat layer ≠ (max_layer - 2)%Z →
     (row_sum m leaf.2 = 0%Z ↔
      ancestor_of translation_dict ancestor layer = Ok leaf.1)).
Proof.
  intros [_ Hperm] Hs Hm [i Hleaf]%list_elem_of_lookup.
  destruct (setup_matrices_by_layer_lookup _ _ _ _ Hs Hm) as (d & _ & Hl & _).
  apply setup_layer_Ok in Hl as (_ & _ & _ & Hemit & _ & _ & Hcols).
  destruct (Forall2_lookup_l _ _ _ _ _ Hemit Hleaf) as (t & Ht & He).
  apply emit_Ok in He as (anc & Hanc & Hrow & _ & Hv).
  assert (row_sum m leaf.2 = t.2) as ->.
  { rewrite row_sum_coo, <- Hrow by done. apply coo_row_value.
    - rewrite (emit_rows _ _ _ Hemit), Hperm. apply NoDup_seq.
    - by eapply list_elem_of_lookup_2. }
  exists anc. split; [done|].
  destruct (decide (include_duplicates = true ∨
                    Z.of_nat layer = (max_layer - 2)%Z)) as [Hkeep|Hsupp].
  - rewrite (edge_val_keeping _ _ _ _ Hkeep Hv).
    split; [by right|]. split; [done|]. intros Hincl Hne.
    destruct Hkeep; congruence.
  - assert (include_duplicates = false) as Hincl.
    { destruct include_duplicates; [|done]. exfalso. apply Hsupp. by left. }
    assert (Z.of_nat layer ≠ (max_layer - 2)%Z) as Hne by tauto.
    destruct (edge_val_suppressing _ _ _ _ Hincl Hne Hv) as (dbl & Hdbl & ->).
    split; [case_decide; auto|]. split; [done|]. intros _ _.
    rewrite Hdbl. case_decide as Heq; [by rewrite Heq|].
    split; [done|]. by intros [= ?].
Qed.

(** X7: for a leaf map that numbers the leaves 0 to N-1, the row of a leaf
    in the matrix of a layer sums to 1, except where suppression is active
    and the ancestor's own ancestor at that layer is the leaf: then the row
    sums to 0, the leaf being left out of the layer.  At layer
    [max_layer - 2] every row sums to 1 whatever [include_duplicates] is. *)
Theorem row_sum_of_leaf ms ds layer m leaf :
  dense_index_map code_ids →
  setup_matrices_by_layer set_list code_ids translation_dict max_layer
    include_duplicates = Ok (ms, ds) →
  ms !! layer = Some m → leaf ∈ code_ids →
  ∃ ancestor,
    ancestor_of translation_dict leaf.1 layer = Ok ancestor ∧
    (row_sum m leaf.2 = 0%Z ∨ row_sum m leaf.2 = 1%Z) ∧
    (include_duplicates = true ∨ Z.of_nat layer = (max_layer - 2)%Z →
     row_sum m leaf.2 = 1%Z) ∧
    (include_duplicates = false → Z.of_nat layer ≠ (max_layer - 2)%Z →
     (row_sum m leaf.2 = 0%Z ↔
      ancestor_of translation_dict ancestor layer = Ok leaf.1)).
Proof. apply row_sum_leaf_spec. Qed.
End setup_facts.

(** *** The theorems on the example data *)

Lemma demo_setup :
  setup_matrices_by_layer elements demo_code_ids demo_translation_dict 2 true
  = Ok (demo_matrices, demo_layer_id_dicts).
Proof. vm_compute. reflexivity. Defined.

Lemma shallow_setup :
  setup_matrices_by_layer elements shallow_code_ids shallow_translation_dict
    1 false
  = Ok ([shallow_matrix], [shallow_layer_id_dict]).
Proof. vm_compute. reflexivity. Defined.

Lemma emitted_entry_value_witness :
  setup_matrices_by_layer elements shallow_code_ids shallow_translation_dict
    1 false = Ok ([shallow_matrix], [shallow_layer_id_dict]) ∧
  [shallow_matrix] !! 0 = Some shallow_matrix ∧
  ∃ d, [shallow_layer_id_dict] !! 0 = Some d ∧
    Forall2 (λ (leaf : Code * nat) (t : nat * nat * Z),
      ∃ ancestor,
        ancestor_of shallow_translation_dict leaf.1 0 = Ok ancestor ∧
        t.1.1 = leaf.2 ∧ d !! ancestor = Some t.1.2 ∧
        (false = true ∨ Z.of_nat 0 = (1 - 2)%Z → t.2 = 1%Z) ∧
        (false = false → Z.of_nat 0 ≠ (1 - 2)%Z →
           ∃ double_ancestor,
             ancestor_of shallow_translation_dict ancestor 0 = Ok double_ancestor ∧
             (double_ancestor = leaf.1 → t.2 = 0%Z) ∧
             (double_ancestor ≠ leaf.1 → t.2 = 1%Z)) ∧
        (NoDup shallow_code_ids.*2 → toarray shallow_matrix t.1.1 t.1.2 = t.2))
      shallow_code_ids (coo shallow_matrix).
Proof.
  split; [exact shallow_setup|]. split; [reflexivity|].
  exact (emitted_entry_value elements shallow_code_ids shallow_translation_dict
           1 false _ _ 0 shallow_matrix shallow_setup eq_refl).
Defined.

Lemma row_sums_one_witness :
  dense_index_map demo_code_ids ∧ true = true ∧
  setup_matrices_by_layer elements demo_code_ids demo_translation_dict 2 true
    = Ok (demo_matrices, demo_layer_id_dicts) ∧
  mk_csr (9, 4) [(0, 1, 1%Z); (1, 1, 1%Z); (2, 1, 1%Z); (3, 2, 1%Z);
                 (4, 2, 1%Z); (5, 0, 1%Z); (6, 3, 1%Z); (7, 3, 1%Z);
                 (8, 3, 1%Z)] ∈ demo_matrices ∧
  (9 = length demo_code_ids ∧
   (3 < 9 →
    row_sum (mk_csr (9, 4) [(0, 1, 1%Z); (1, 1, 1%Z); (2, 1, 1%Z); (3, 2, 1%Z);
                 (4, 2, 1%Z); (5, 0, 1%Z); (6, 3, 1%Z); (7, 3, 1%Z);
                 (8, 3, 1%Z)]) 3 = 1%Z)).
Proof.
  assert (dense_index_map demo_code_ids) as Hdense.
  { split; [|reflexivity]. apply (bool_decide_unpack _). vm_compute. exact I. }
  assert (mk_csr (9, 4) [(0, 1, 1%Z); (1, 1, 1%Z); (2, 1, 1%Z); (3, 2, 1%Z);
                 (4, 2, 1%Z); (5, 0, 1%Z); (6, 3, 1%Z); (7, 3, 1%Z);
                 (8, 3, 1%Z)] ∈ demo_matrices) as Hin.
  { left. }
  split; [exact Hdense|]. split; [reflexivity|]. split; [exact demo_setup|].
  split; [exact Hin|].
  exact (row_sums_one elements demo_code_ids demo_translation_dict 2 true
           _ _ _ 3 Hdense eq_refl demo_setup Hin).
Defined.

Lemma suppressed_iff_same_layer_witness :
  NoDup shallow_code_ids.*2 ∧ false = false ∧
  setup_matrices_by_layer elements shallow_code_ids shallow_translation_dict
    1 false = Ok ([shallow_matrix], [shallow_layer_id_dict]) ∧
  [shallow_matrix] !! 0 = Some shallow_matrix ∧
  Z.of_nat 0 ≠ (1 - 2)%Z ∧
  ("d", 1) ∈ shallow_code_ids ∧
  ancestor_of shallow_translation_dict "d" 0 = Ok "d" ∧
  ∃ d col,
    [shallow_layer_id_dict] !! 0 = Some d ∧ d !! "d" = Some col ∧
    (toarray shallow_matrix 1 col = 0%Z ↔
     ancestor_of shallow_translation_dict "d" 0 = Ok "d").
Proof.
  assert (NoDup shallow_code_ids.*2) as Hnd.
  { apply (bool_decide_unpack _). vm_compute. exact I. }
  assert (Z.of_nat 0 ≠ (1 - 2)%Z) as Hne by lia.
  assert (("d", 1) ∈ shallow_code_ids) as Hin by (right; left).
  split; [exact Hnd|]. split; [reflexivity|]. split; [exact shallow_setup|].
  split; [reflexivity|]. split; [exact Hne|]. split; [exact Hin|].
  split; [reflexivity|].
  exact (suppressed_iff_same_layer elements shallow_code_ids
           shallow_translation_dict 1 false _ _ 0 shallow_matrix ("d", 1) "d"
           Hnd eq_refl shallow_setup eq_refl Hne Hin eq_refl).
Defined.

(** C8 as stated fails on the shallow branch: the entry of leaf d under its
    layer-0 ancestor d is 0, although the parent of that ancestor at the
    next layer is CD and not the leaf. *)
Lemma next_layer_parent_counterexample :
  ¬ (∀ ms ds m d col,
       setup_matrices_by_layer elements shallow_code_ids
         shallow_translation_dict 1 false = Ok (ms, ds) →
       ms !! 0 = Some m → ds !! 0 = Some d →
       ancestor_of shallow_translation_dict "d" 0 = Ok "d" →
       d !! "d" = Some col →
       (toarray m 1 col = 0%Z ↔
        ancestor_of shallow_translation_dict "d" 1 = Ok "d")).
Proof.
  intros Hclaim.
  destruct (Hclaim [shallow_matrix] [shallow_layer_id_dict] shallow_matrix
              shallow_layer_id_dict 1 shallow_setup eq_refl eq_refl eq_refl
              eq_refl) as [Hforced _].
  specialize (Hforced eq_refl). vm_compute in Hforced. discriminate.
Qed.

Lemma layer_id_dict_code_to_index_witness :
  (∀ X : gset Code, NoDup (elements X)) ∧
  (∀ (X : gset Code) x, x ∈ elements X ↔ x ∈ X) ∧
  setup_matrices_by_layer elements demo_code_ids demo_translation_dict 2 true
    = Ok (demo_matrices, demo_layer_id_dicts) ∧
  demo_layer_id_dicts !! 0 = Some ({[ "c" := 0; "a" := 1; "b" := 2; "d" := 3 ]}
                                     : gmap Code nat) ∧
  ∃ codes : list Code,
    NoDup codes ∧
    (∀ a, a ∈ codes ↔
          ∃ leaf, leaf ∈ demo_code_ids ∧
                  ancestor_of demo_translation_dict leaf.1 0 = Ok a) ∧
    (∀ a j, ({[ "c" := 0; "a" := 1; "b" := 2; "d" := 3 ]} : gmap Code nat) !! a
              = Some j ↔ codes !! j = Some a).
Proof.
  split; [exact NoDup_elements|]. split; [exact elem_of_elements|].
  split; [exact demo_setup|]. split; [reflexivity|].
  exact (layer_id_dict_code_to_index elements NoDup_elements elem_of_elements
           demo_code_ids demo_translation_dict 2 true _ _ 0 _
           demo_setup eq_refl).
Defined.

Lemma ancestor_must_be_key_witness :
  (∀ X : gset Code, NoDup (elements X)) ∧
  (∀ (X : gset Code) x, x ∈ elements X ↔ x ∈ X) ∧
  false = false ∧
  Forall (λ leaf : Code * nat, leaf.2 < length demo_code_ids) demo_code_ids ∧
  1 < Z.to_nat 2 ∧
  Z.of_nat 1 ≠ (2 - 2)%Z ∧
  ("a.1", 0) ∈ demo_code_ids ∧
  ancestor_of demo_translation_dict "a.1" 1 = Ok "AB" ∧
  ¬ (∃ e, demo_translation_dict !! "AB" = Some e ∧ 1 < length (parents e)) ∧
  ∃ e, setup_matrices_by_layer elements demo_code_ids demo_translation_dict
         2 false = Raise e ∧ LookupError e.
Proof.
  assert (Forall (λ leaf : Code * nat, leaf.2 < length demo_code_ids)
                 demo_code_ids) as Hrange.
  { apply (bool_decide_unpack _). vm_compute. exact I. }
  assert (1 < Z.to_nat 2) as Hlt by (simpl; lia).
  assert (Z.of_nat 1 ≠ (2 - 2)%Z) as Hne by lia.
  assert (("a.1", 0) ∈ demo_code_ids) as Hin by left.
  assert (¬ (∃ e, demo_translation_dict !! "AB" = Some e
                  ∧ 1 < length (parents e))) as Hmissing.
  { intros (e & He & _). vm_compute in He. discriminate. }
  split; [exact NoDup_elements|]. split; [exact elem_of_elements|].
  split; [reflexivity|]. split; [exact Hrange|]. split; [exact Hlt|].
  split; [exact Hne|]. split; [exact Hin|]. split; [reflexivity|].
  split; [exact Hmissing|].
  exact (ancestor_must_be_key elements NoDup_elements elem_of_elements
           demo_code_ids demo_translation_dict 2 false 1 ("a.1", 0) "AB"
           eq_refl Hrange Hlt Hne Hin eq_refl Hmissing).
Defined.

(** ** Sums over the axes of an array *)

Section array_sums.
Implicit Types (a b : ndarray) (rows : list (list Z)) (r : list Z).

Lemma sigma_S (n : nat) (f : nat → Z) :
  sigma (S n) f = (f 0%nat + sigma n (λ i, f (S i)))%Z.
Proof. unfold sigma. simpl. by rewrite <- seq_shift, map_map. Qed.

Lemma sigma_ext (n : nat) (f g : nat → Z) :
  (∀ i, i < n → f i = g i) → sigma n f = sigma n g.
Proof.
  intros Hfg. unfold sigma. f_equal. apply map_ext_in.
  intros i Hi%in_seq. apply Hfg. lia.
Qed.

Lemma sigma_zero (n : nat) : sigma n (λ _, 0%Z) = 0%Z.
Proof. apply Zsum_map_zero. Qed.


Lemma map_seq_ext {A} (n : nat) (f g : nat → A) :
  (∀ i, i < n → f i = g i) → map f (seq 0 n) = map g (seq 0 n).
Proof. intros Hfg. apply map_ext_in. intros i Hi%in_seq. apply Hfg. lia. Qed.

(** A list is the table of its entries. *)
Lemma map_lookup_total `{Inhabited A} {B} (g : A → B) (l : list A) :
  map g l = map (λ i, g (l !!! i)) (seq 0 (length l)).
Proof.
  induction l as [|x l IH]; simpl; [done|].
  f_equal. by rewrite <- seq_shift, map_map.
Qed.

Lemma Zsum_sigma r : Zsum r = sigma (length r) (λ j, r !!! j).
Proof.
  induction r as [|x r IH]; [done|].
  simpl length. rewrite sigma_S. simpl. by rewrite IH.
Qed.

Lemma sum_axis0 (nc : nat) rows :
  Forall (λ r, length r = nc) rows →
  foldr vec_add (replicate nc 0%Z) rows
  = map (λ j, sigma (length rows) (λ i, (rows !!! i) !!! j)) (seq 0 nc).
Proof.
  induction rows as [|r rows IH]; intros Hwf.
  - simpl. rewrite (map_seq_ext _ _ (λ _, 0%Z)) by done.
    apply (list_eq_same_length _ _ nc).
    + by rewrite length_map, length_seq.
    + by rewrite length_replicate.
    + intros i x y Hi [-> _]%lookup_replicate Hy.
      apply list_lookup_fmap_Some in Hy as (? & ? & ?). done.
  - apply Forall_cons in Hwf as [Hr Hwf]. simpl foldr. rewrite IH by done.
    apply (list_eq_same_length _ _ nc).
    + by rewrite length_map, length_seq.
    + unfold vec_add. rewrite length_zip_with, length_map, length_seq. lia.
    + intros j x y Hj Hx Hy.
      apply lookup_zip_with_Some in Hx as (u & v & -> & Hu & Hv).
      apply list_lookup_fmap_Some in Hv as (j' & -> & Hj').
      apply list_lookup_fmap_Some in Hy as (j'' & -> & Hj'').
      apply lookup_seq in Hj' as [-> _]. apply lookup_seq in Hj'' as [-> _].
      simpl length. rewrite sigma_S. simpl.
      by rewrite (list_lookup_total_correct _ _ _ Hu).
Qed.

(** [np.sum] adds up the entries along the given axes. *)
Lemma np_sum_spec a (axes : axis_spec) :
  wf_nd a → np_sum a axes = sum_over axes (nrows a) (ncols a) (at_ a).
Proof.
  intros Hwf. unfold wf_nd, nrows, at_ in *.
  assert (∀ i, i < length (nd_rows a) → length (nd_rows a !!! i) = ncols a)
    as Hlen.
  { intros i Hi. destruct (lookup_lt_is_Some_2 _ _ Hi) as [r Hr].
    rewrite (list_lookup_total_correct _ _ _ Hr).
    by apply (Forall_lookup_1 _ _ _ _ Hwf Hr). }
  destruct axes; simpl.
  - by apply sum_axis0.
  - rewrite (map_lookup_total Zsum). apply map_seq_ext. intros i Hi.
    by rewrite Zsum_sigma, Hlen.
  - rewrite (map_lookup_total Zsum). unfold sigma at 1. f_equal.
    apply map_seq_ext. intros i Hi. by rewrite Zsum_sigma, Hlen.
Qed.

Lemma sum_over_ext (axes : axis_spec) (nr nc : nat) (f g : nat → nat → Z) :
  (∀ i j, i < nr → j < nc → f i j = g i j) →
  sum_over axes nr nc f = sum_over axes nr nc g.
Proof.
  intros Hfg. destruct axes; simpl.
  - apply map_seq_ext. intros j Hj. apply sigma_ext. intros i Hi. by apply Hfg.
  - apply map_seq_ext. intros i Hi. apply sigma_ext. intros j Hj. by apply Hfg.
  - apply sigma_ext. intros i Hi. apply sigma_ext. intros j Hj. by apply Hfg.
Qed.

Lemma at_in_range a i j :
  wf_nd a → i < nrows a → j < ncols a →
  ∃ r, nd_rows a !! i = Some r ∧ r !! j = Some (at_ a i j).
Proof.
  intros Hwf Hi Hj. unfold at_.
  destruct (lookup_lt_is_Some_2 _ _ Hi) as [r Hr]. exists r. split; [done|].
  rewrite (list_lookup_total_correct _ _ _ Hr).
  apply list_lookup_lookup_total_lt.
  by rewrite (Forall_lookup_1 _ _ _ _ Hwf Hr).
Qed.

Lemma elementwise_wf (f : Z → Z → Z) a b :
  wf_nd a → wf_nd b → same_shape a b →
  wf_nd (elementwise f a b) ∧ same_shape (elementwise f a b) a.
Proof.
  intros Ha Hb [Hr Hc]. unfold wf_nd, same_shape, nrows in *. simpl. split.
  - apply Forall_forall. intros r [i Hi]%list_elem_of_lookup.
    apply lookup_zip_with_Some in Hi as (u & v & -> & Hu & Hv).
    rewrite length_zip_with.
    rewrite (Forall_lookup_1 _ _ _ _ Ha Hu), (Forall_lookup_1 _ _ _ _ Hb Hv).
    lia.
  - rewrite length_zip_with. lia.
Qed.

Lemma elementwise_at (f : Z → Z → Z) a b i j :
  wf_nd a → wf_nd b → same_shape a b → i < nrows a → j < ncols a →
  at_ (elementwise f a b) i j = f (at_ a i j) (at_ b i j).
Proof.
  intros Ha Hb [Hr Hc] Hi Hj.
  destruct (at_in_range a i j) as (u & Hu & Huj); [done..|].
  destruct (at_in_range b i j) as (v & Hv & Hvj); [done|lia|lia|].
  assert (nd_rows (elementwise f a b) !! i = Some (zip_with f u v)) as Hrow.
  { simpl. apply lookup_zip_with_Some. by exists u, v. }
  unfold at_ at 1. rewrite (list_lookup_total_correct _ _ _ Hrow).
  apply list_lookup_total_correct, lookup_zip_with_Some.
  by exists (at_ a i j), (at_ b i j).
Qed.

Lemma np_maximum_scalar_wf a (c : Z) :
  wf_nd a → wf_nd (np_maximum_scalar a c).
Proof.
  unfold wf_nd. simpl. intros Ha. apply Forall_fmap.
  eapply Forall_impl; [done|]. intros r Hr. simpl. by rewrite length_map.
Qed.

Lemma np_maximum_scalar_nrows a (c : Z) :
  nrows (np_maximum_scalar a c) = nrows a.
Proof. unfold nrows. simpl. by rewrite length_map. Qed.

Lemma np_maximum_scalar_at a (c : Z) i j :
  wf_nd a → i < nrows a → j < ncols a →
  at_ (np_maximum_scalar a c) i j = Z.max (at_ a i j) c.
Proof.
  intros Ha Hi Hj. destruct (at_in_range a i j) as (u & Hu & Huj); [done..|].
  assert (nd_rows (np_maximum_scalar a c) !! i
          = Some (map (λ x, Z.max x c) u)) as Hrow.
  { simpl. by rewrite list_lookup_fmap, Hu. }
  unfold at_ at 1. rewrite (list_lookup_total_correct _ _ _ Hrow).
  apply list_lookup_total_correct. by rewrite list_lookup_fmap, Huj.
Qed.

Lemma counts_spec pred gold (axes : axis_spec) :
  wf_nd pred → wf_nd gold → same_shape pred gold →
  tp_matrix_mul pred gold axes
  = sum_over axes (nrows pred) (ncols pred)
      (λ i j, Z.min (at_ pred i j) (at_ gold i j)) ∧
  fp_matrix_mul pred gold axes
  = sum_over axes (nrows pred) (ncols pred)
      (λ i j, Z.max (at_ pred i j - at_ gold i j) 0) ∧
  fn_matrix_mul pred gold axes
  = sum_over axes (nrows pred) (ncols pred)
      (λ i j, Z.max (at_ gold i j - at_ pred i j) 0).
Proof.
  intros Hp Hg Hs.
  assert (same_shape gold pred) as Hs' by (destruct Hs; split; lia).
  destruct (elementwise_wf Z.min pred gold Hp Hg Hs) as [Hw1 [Hr1 Hc1]].
  destruct (elementwise_wf Z.sub pred gold Hp Hg Hs) as [Hw2 [Hr2 Hc2]].
  destruct (elementwise_wf Z.sub gold pred Hg Hp Hs') as [Hw3 [Hr3 Hc3]].
  destruct Hs as [Hr Hc].
  unfold tp_matrix_mul, fp_matrix_mul, fn_matrix_mul.
  unfold np_minimum, np_subtract.
  rewrite !np_sum_spec by auto using np_maximum_scalar_wf.
  repeat split.
  - rewrite Hr1, Hc1. apply sum_over_ext. intros i j Hi Hj.
    by apply elementwise_at.
  - rewrite np_maximum_scalar_nrows.
    change (ncols (np_maximum_scalar ?a _)) with (ncols a). rewrite Hr2, Hc2.
    apply sum_over_ext. intros i j Hi Hj.
    rewrite np_maximum_scalar_at by (done || lia).
    by rewrite elementwise_at.
  - rewrite np_maximum_scalar_nrows.
    change (ncols (np_maximum_scalar ?a _)) with (ncols a).
    rewrite Hr3, Hc3, <- Hr, <- Hc.
    apply sum_over_ext. intros i j Hi Hj.
    rewrite np_maximum_scalar_at by (done || lia).
    rewrite elementwise_at; (done || lia).
Qed.

End array_sums.

(** ** Guarded ratios *)

Section ratios.
Local Open Scope Q_scope.

Lemma ratio_of_spec (n m : Z) :
  (0 ≤ n)%Z → (0 ≤ m)%Z →
  ∃ q, ratio_of n m = Fin q ∧ q == guarded_ratio n (n + m) ∧ 0 <= q <= 1.
Proof.
  intros Hn Hm. unfold ratio_of, guarded_ratio, zeq0_times_one, of_Z, fdiv.
  destruct (n + m =? 0)%Z eqn:Hd.
  - apply Z.eqb_eq in Hd. assert (n = 0%Z) as -> by lia.
    assert (m = 0%Z) as -> by lia. simpl. eexists.
    split; [reflexivity|]. split; [by vm_compute|]. split; by vm_compute.
  - apply Z.eqb_neq in Hd. simpl Z.b2z.
    replace (n + m + 0 * 1)%Z with (n + m)%Z by lia.
    assert (0 < inject_Z (n + m)) as Hpos.
    { rewrite <- (Zlt_Qlt 0). lia. }
    destruct (Qeq_bool (inject_Z (n + m)) 0) eqn:Hq.
    { apply Qeq_bool_iff in Hq. rewrite Hq in Hpos. by apply Qlt_irrefl in Hpos. }
    exists (inject_Z n / inject_Z (n + m)). split; [done|]. split; [reflexivity|].
    split.
    + apply Qle_shift_div_l; [done|]. rewrite Qmult_0_l. rewrite <- (Zle_Qle 0). lia.
    + apply Qle_shift_div_r; [done|]. rewrite Qmult_1_l. rewrite <- Zle_Qle. lia.
Qed.

Lemma f1_of_spec (p r : Q) :
  0 <= p → 0 <= r →
  ∃ f, f1_of (Fin p) (Fin r) = Fin f ∧ f == guarded_f1 p r.
Proof.
  intros Hp Hr. unfold f1_of, guarded_f1, feq0_times_one, of_Z.
  simpl fadd. simpl fmul.
  destruct (Qeq_bool (p + r) 0) eqn:Hz.
  - apply Qeq_bool_iff in Hz. simpl Z.b2z. simpl fadd. unfold fdiv.
    change (inject_Z (1 * 1)) with 1. change (inject_Z 2) with 2.
    destruct (Qeq_bool (p + r + 1) 0) eqn:Hq.
    { apply Qeq_bool_iff in Hq. lra. }
    eexists. split; [done|].
    assert (p == 0) as -> by lra. field. lra.
  - apply Qeq_bool_neq in Hz. simpl Z.b2z. simpl fadd. unfold fdiv.
    change (inject_Z (0 * 1)) with 0. change (inject_Z 2) with 2.
    destruct (Qeq_bool (p + r + 0) 0) eqn:Hq.
    { apply Qeq_bool_iff in Hq. lra. }
    eexists. split; [done|]. field. lra.
Qed.

Lemma guarded_f1_unit (p r : Q) :
  0 <= p <= 1 → 0 <= r <= 1 → 0 <= guarded_f1 p r <= 1.
Proof.
  intros [Hp Hp'] [Hr Hr']. unfold guarded_f1.
  destruct (Qeq_bool (p + r) 0) eqn:Hz; [split; discriminate|].
  apply Qeq_bool_neq in Hz. assert (0 < p + r) as Hpos by lra.
  split.
  - apply Qle_shift_div_l; [done|]. nra.
  - apply Qle_shift_div_r; [done|]. nra.
Qed.

Lemma guarded_f1_zero (p r : Q) : p == 0 → r == 0 → guarded_f1 p r == 0.
Proof.
  intros Hp Hr. unfold guarded_f1.
  destruct (Qeq_bool (p + r) 0) eqn:Hz; [reflexivity|].
  apply Qeq_bool_neq in Hz. exfalso. apply Hz. lra.
Qed.
End ratios.

(** ** The reports *)

Section reports.
Implicit Types (pred gold : ndarray).

Lemma zip_with_fmap_same {A B C D} (h : B → C → D) (f : A → B) (g : A → C)
    (l : list A) :
  zip_with h (f <$> l) (g <$> l) = (λ x, h (f x) (g x)) <$> l.
Proof. induction l as [|x l IH]; [done|]. csimpl. by rewrite IH. Qed.

(** The vectors of ratios, component by component. *)
Lemma ratio_vector (tp fp : list Z) :
  zip_with fdiv (of_Z <$> tp)
    (of_Z <$> vec_add (vec_add tp fp) (zeq0_times_one <$> vec_add tp fp))
  = zip_with ratio_of tp fp.
Proof.
  revert fp. induction tp as [|x tp IH]; intros [|y fp]; try done.
  csimpl. unfold vec_add in *. by rewrite IH.
Qed.

Lemma f1_vector (prec rec : list npfloat) :
  zip_with fdiv (fmul (of_Z 2) <$> zip_with fmul prec rec)
    (zip_with fadd (zip_with fadd prec rec)
              (feq0_times_one <$> zip_with fadd prec rec))
  = zip_with f1_of prec rec.
Proof.
  revert rec. induction prec as [|x prec IH]; intros [|y rec]; try done.
  csimpl. by rewrite IH.
Qed.

Lemma per_class_vectors pred gold :
  wf_nd pred → wf_nd gold → same_shape pred gold →
  tp_matrix_mul_per_class pred gold
    = class_tp pred gold <$> seq 0 (ncols pred) ∧
  fp_matrix_mul_per_class pred gold
    = class_fp pred gold <$> seq 0 (ncols pred) ∧
  fn_matrix_mul_per_class pred gold
    = class_fn pred gold <$> seq 0 (ncols pred).
Proof.
  intros Hp Hg Hs.
  destruct (counts_spec pred gold Axis0 Hp Hg Hs) as (Htp & Hfp & Hfn).
  unfold tp_matrix_mul_per_class, fp_matrix_mul_per_class,
    fn_matrix_mul_per_class. by rewrite Htp, Hfp, Hfn.
Qed.


(** *** Signs of the counts *)

Lemma sigma_nonneg (n : nat) (f : nat → Z) :
  (∀ i, i < n → (0 ≤ f i)%Z) → (0 ≤ sigma n f)%Z.
Proof.
  revert f. induction n as [|n IH]; intros f Hf; [done|].
  rewrite sigma_S. specialize (IH (λ i, f (S i))).
  assert (0 ≤ f 0%nat)%Z by (apply Hf; lia).
  assert (0 ≤ sigma n (λ i, f (S i)))%Z by (apply IH; intros; apply Hf; lia).
  lia.
Qed.

Lemma sigma_all_zero (n : nat) (f : nat → Z) :
  (∀ i, i < n → f i = 0%Z) → sigma n f = 0%Z.
Proof.
  intros Hf. rewrite (sigma_ext n f (λ _, 0%Z)) by done. apply sigma_zero.
Qed.

Lemma nonneg_at a i j :
  wf_nd a → nonneg a → i < nrows a → j < ncols a → (0 ≤ at_ a i j)%Z.
Proof.
  intros Hwf Hnn Hi Hj. destruct (at_in_range a i j) as (r & Hr & Hx); [done..|].
  pose proof (Forall_lookup_1 _ _ _ _ Hnn Hr) as Hrow.
  apply (Forall_lookup_1 _ _ _ _ Hrow Hx).
Qed.


Lemma class_counts_nonneg pred gold j :
  wf_nd pred → wf_nd gold → same_shape pred gold →
  nonneg pred → nonneg gold → j < ncols pred →
  (0 ≤ class_tp pred gold j)%Z ∧ (0 ≤ class_fp pred gold j)%Z ∧
  (0 ≤ class_fn pred gold j)%Z.
Proof.
  intros Hp Hg [Hr Hc] Hnp Hng Hj. repeat split; apply sigma_nonneg; intros i Hi.
  - pose proof (nonneg_at pred i j Hp Hnp Hi Hj).
    assert (0 ≤ at_ gold i j)%Z by (apply nonneg_at; (done || lia)). lia.
  - lia.
  - lia.
Qed.




Lemma guarded_ratio_zero (m : Z) : (guarded_ratio 0 m == 0)%Q.
Proof.
  unfold guarded_ratio. destruct (m =? 0)%Z; [reflexivity|].
  unfold Qdiv. change (inject_Z 0) with 0%Q. ring.
Qed.

(** The three scores computed from non-negative counts [n], [m], [k]
    (true positives, false positives, false negatives). *)
Lemma scores_spec (n m k : Z) :
  (0 ≤ n)%Z → (0 ≤ m)%Z → (0 ≤ k)%Z →
  ∃ p r f : Q,
    ratio_of n m = Fin p ∧ ratio_of n k = Fin r ∧
    f1_of (ratio_of n m) (ratio_of n k) = Fin f ∧
    (p == guarded_ratio n (n + m))%Q ∧ (r == guarded_ratio n (n + k))%Q ∧
    (f == guarded_f1 p r)%Q ∧
    (0 <= p <= 1)%Q ∧ (0 <= r <= 1)%Q ∧ (0 <= f <= 1)%Q ∧
    (n = 0%Z → (p == 0)%Q ∧ (r == 0)%Q ∧ (f == 0)%Q).
Proof.
  intros Hn Hm Hk.
  destruct (ratio_of_spec n m Hn Hm) as (p & Hp & Hpq & Hp01).
  destruct (ratio_of_spec n k Hn Hk) as (r & Hr & Hrq & Hr01).
  rewrite Hp, Hr.
  destruct (f1_of_spec p r) as (f & Hf & Hfq); [by destruct Hp01|by destruct Hr01|].
  exists p, r, f. repeat split; try done; try apply Hp01; try apply Hr01.
  - rewrite Hfq. by apply guarded_f1_unit.
  - rewrite Hfq. by apply guarded_f1_unit.
  - subst n. rewrite Hpq. apply guarded_ratio_zero.
  - subst n. rewrite Hrq. apply guarded_ratio_zero.
  - subst n. rewrite Hfq. apply guarded_f1_zero.
    + rewrite Hpq. apply guarded_ratio_zero.
    + rewrite Hrq. apply guarded_ratio_zero.
Qed.

Lemma report_lookup pred gold (code_id_dict : gmap nat Code) j row :
  wf_nd pred → wf_nd gold → same_shape pred gold →
  report pred gold code_id_dict !! j = Some row →
  j < ncols pred ∧
  Precision row = ratio_of (class_tp pred gold j) (class_fp pred gold j) ∧
  Recall row = ratio_of (class_tp pred gold j) (class_fn pred gold j) ∧
  F1 row = f1_of (Precision row) (Recall row).
Proof.
  intros Hp Hg Hs. unfold report.
  destruct (per_class_vectors pred gold Hp Hg Hs) as (-> & -> & ->).
  rewrite !ratio_vector, f1_vector, !zip_with_fmap_same.
  intros (t & c & -> & Ht & _)%lookup_zip_with_Some. simpl.
  apply lookup_zip_with_Some in Ht as (t3 & sup & -> & Ht3 & _).
  apply list_lookup_fmap_Some in Ht3 as (j' & -> & Hj').
  apply lookup_seq in Hj' as [-> Hlt]. done.
Qed.



(** *** Averages *)






Lemma report_macro_unfold pred gold :
  wf_nd pred → wf_nd gold → same_shape pred gold →
  let prec_macro := np_average
    ((λ j, ratio_of (class_tp pred gold j) (class_fp pred gold j))
       <$> seq 0 (ncols pred)) in
  let rec_macro := np_average
    ((λ j, ratio_of (class_tp pred gold j) (class_fn pred gold j))
       <$> seq 0 (ncols pred)) in
  report_macro pred gold
  = {[ "Precision" := prec_macro; "Recall" := rec_macro;
       "F1" := f1_of prec_macro rec_macro ]}.
Proof.
  intros Hp Hg Hs. unfold report_macro.
  destruct (per_class_vectors pred gold Hp Hg Hs) as (-> & -> & ->).
  by rewrite !ratio_vector, !zip_with_fmap_same.
Qed.

End reports.

(** ** [hierarchical_eval_setup] *)

Section projection.
Implicit Types (a b : ndarray) (v : list Z).












(** *** Further properties of the projection *)










(** *** The combined matrices *)








End projection.

(** ** [report_bin] *)

(** C2 (what the code does): [report_bin] binarizes its two matrices and
    then calls [report] without its third argument [code_id_dict], so every
    call raises a [TypeError] and no report is returned; the sibling
    functions [report_micro_bin] and [report_macro_bin] do delegate to the
    reports of the binarized matrices. *)
Theorem report_bin_raises (pred gold : ndarray) :
  report_bin pred gold = Raise TypeError ∧
  (∀ code_id_dict : gmap nat Code,
     report_bin pred gold
     ≠ Ok (report (greater_times_one pred 0) (greater_times_one gold 0)
                  code_id_dict)) ∧
  report_micro_bin pred gold
    = report_micro (greater_times_one pred 0) (greater_times_one gold 0) ∧
  report_macro_bin pred gold
    = report_macro (greater_times_one pred 0) (greater_times_one gold 0).
Proof. repeat split. intros d. discriminate. Qed.

(** *** The theorems on the example data *)


Lemma macro_example_wf :
  wf_nd macro_pred ∧ wf_nd macro_gold ∧ same_shape macro_pred macro_gold ∧
  nonneg macro_pred ∧ nonneg macro_gold.
Proof.
  split; [|split; [|split; [|split]]];
    apply (bool_decide_unpack _); vm_compute; exact I.
Defined.





(** ** From the transition matrices to the combined matrices *)

Section pipeline.
Variable set_list : gset Code → list Code.
Variable code_ids : list (Code * nat).
Variable translation_dict : gmap Code entry.
Variable max_layer : Z.
Variable include_duplicates : bool.





End pipeline.

(** ** Further properties of the counts and of the reports *)

Section counts_more.
Implicit Types (pred gold a : ndarray).

Lemma sum_axis0_length a : wf_nd a → length (np_sum a Axis0) = ncols a.
Proof.
  intros Hwf. rewrite np_sum_spec by done. simpl.
  by rewrite length_map, length_seq.
Qed.





(** X15: exchanging the roles of the two matrices keeps the true positives
    and exchanges the false positives with the false negatives, so the
    micro precision of one order is the micro recall of the other. *)
Theorem swapping_roles pred gold (axes : axis_spec) :
  wf_nd pred → wf_nd gold → same_shape pred gold →
  tp_matrix_mul gold pred axes = tp_matrix_mul pred gold axes ∧
  fp_matrix_mul gold pred axes = fn_matrix_mul pred gold axes ∧
  fn_matrix_mul gold pred axes = fp_matrix_mul pred gold axes ∧
  report_micro gold pred !! "Precision" = report_micro pred gold !! "Recall" ∧
  report_micro gold pred !! "Recall" = report_micro pred gold !! "Precision".
Proof.
  intros Hp Hg Hs.
  assert (same_shape gold pred) as Hs' by (destruct Hs; split; lia).
  assert (∀ ax, tp_matrix_mul gold pred ax = tp_matrix_mul pred gold ax)
    as Htp.
  { intros ax.
    destruct (counts_spec gold pred ax Hg Hp Hs') as (-> & _).
    destruct (counts_spec pred gold ax Hp Hg Hs) as (-> & _).
    destruct Hs as [-> ->]. apply sum_over_ext. intros i j _ _. lia. }
  split; [apply Htp|]. split; [done|]. split; [done|].
  unfold report_micro, tp_matrix_mul_full, fp_matrix_mul_full,
    fn_matrix_mul_full.
  rewrite (Htp AxisAll).
  change (fp_matrix_mul gold pred AxisAll) with (fn_matrix_mul pred gold AxisAll).
  change (fn_matrix_mul gold pred AxisAll) with (fp_matrix_mul pred gold AxisAll).
  split; reflexivity.
Qed.
End counts_more.

Section reports_more.
Implicit Types (pred gold a : ndarray).

Lemma omap_lookup_all {A B} (f : A → option B) (l : list A) (j : nat) :
  Forall (λ x, is_Some (f x)) l → omap f l !! j = l !! j ≫= f.
Proof.
  intros Hall. revert j. induction Hall as [|x l [y Hy] Hall IH]; intros j.
  - done.
  - simpl. rewrite Hy. destruct j as [|j]; simpl; [done|]. apply IH.
Qed.

Lemma omap_length_all {A B} (f : A → option B) (l : list A) :
  Forall (λ x, is_Some (f x)) l → length (omap f l) = length l.
Proof.
  induction 1 as [|x l [y Hy] Hall IH]; [done|].
  simpl. rewrite Hy. simpl. f_equal. exact IH.
Qed.

(** The sorted keys of the id dictionary. *)
Lemma sorted_keys (d : gmap nat Code) :
  let keys := merge_sort Nat.le (map_to_list d).*1 in
  Sorted Nat.le keys ∧ NoDup keys ∧ length keys = size d ∧
  (∀ k, k ∈ keys ↔ is_Some (d !! k)).
Proof.
  intros keys. pose proof (merge_sort_Permutation Nat.le (map_to_list d).*1)
    as Hperm. fold keys in Hperm.
  split; [apply Sorted_merge_sort, _|]. split; [|split].
  - rewrite Hperm. apply NoDup_fst_map_to_list.
  - rewrite Hperm, length_fmap. apply length_map_to_list.
  - intros k. rewrite Hperm. split.
    + intros ([k' c] & -> & Hkc%elem_of_map_to_list)%list_elem_of_fmap.
      by exists c.
    + intros [c Hc]. apply list_elem_of_fmap. exists (k, c).
      split; [done|]. by apply elem_of_map_to_list.
Qed.

Lemma report_row_at pred gold (d : gmap nat Code) j row :
  wf_nd pred → wf_nd gold → same_shape pred gold →
  report pred gold d !! j = Some row →
  j < ncols pred ∧
  Support row = sigma (nrows gold) (λ i, at_ gold i j) ∧
  ∃ k, merge_sort Nat.le (map_to_list d).*1 !! j = Some k ∧
       d !! k = Some (RowCode row).
Proof.
  intros Hp Hg Hs. unfold report.
  destruct (per_class_vectors pred gold Hp Hg Hs) as (-> & -> & ->).
  rewrite !ratio_vector, f1_vector, !zip_with_fmap_same.
  rewrite (np_sum_spec gold) by done.
  intros (t & c & -> & Ht & Hc)%lookup_zip_with_Some. simpl.
  apply lookup_zip_with_Some in Ht as (t3 & sup & -> & Ht3 & Hsup).
  apply list_lookup_fmap_Some in Ht3 as (j' & -> & Hj').
  apply lookup_seq in Hj' as [-> Hlt]. simpl in Hsup.
  apply list_lookup_fmap_Some in Hsup as (j' & -> & Hj').
  apply lookup_seq in Hj' as [-> _]. simpl.
  split; [done|]. split; [done|].
  destruct (sorted_keys d) as (_ & _ & _ & Hkeys).
  rewrite omap_lookup_all in Hc.
  - destruct (merge_sort Nat.le (map_to_list d).*1 !! j) as [k|]; [|done].
    by exists k.
  - apply Forall_forall. intros k. apply Hkeys.
Qed.

Lemma report_length pred gold (d : gmap nat Code) :
  wf_nd pred → wf_nd gold → same_shape pred gold →
  length (report pred gold d) = ncols pred `min` size d.
Proof.
  intros Hp Hg Hs. unfold report.
  destruct (per_class_vectors pred gold Hp Hg Hs) as (-> & -> & ->).
  rewrite !ratio_vector, f1_vector, !zip_with_fmap_same.
  destruct (sorted_keys d) as (_ & _ & Hlen & Hkeys).
  rewrite !length_zip_with, length_fmap, length_seq, sum_axis0_length by done.
  rewrite omap_length_all, Hlen.
  - destruct Hs as [_ ->]. lia.
  - apply Forall_forall. intros k. apply Hkeys.
Qed.


(** X17: when every class has a code, the precision and the recall of
    [report_macro] are the averages of the Precision and Recall columns of
    [report]. *)
Theorem macro_averages_the_report pred gold (d : gmap nat Code) :
  wf_nd pred → wf_nd gold → same_shape pred gold →
  (ncols pred ≤ size d)%nat →
  report_macro pred gold !! "Precision"
    = Some (np_average (Precision <$> report pred gold d)) ∧
  report_macro pred gold !! "Recall"
    = Some (np_average (Recall <$> report pred gold d)).
Proof.
  intros Hp Hg Hs Hsize.
  pose proof (report_length pred gold d Hp Hg Hs) as Hlen.
  rewrite Nat.min_l in Hlen by done.
  rewrite report_macro_unfold by done. simpl.
  assert (Precision <$> report pred gold d
          = (λ j, ratio_of (class_tp pred gold j) (class_fp pred gold j))
              <$> seq 0 (ncols pred)) as ->.
  { apply (list_eq_same_length _ _ (ncols pred)).
    - by rewrite length_fmap, length_seq.
    - by rewrite length_fmap.
    - intros j x y Hj Hx Hy.
      apply list_lookup_fmap_Some in Hx as (row & -> & Hrow).
      apply list_lookup_fmap_Some in Hy as (j' & -> & Hj').
      apply lookup_seq in Hj' as [-> _].
      by destruct (report_lookup _ _ _ _ _ Hp Hg Hs Hrow) as (_ & -> & _). }
  assert (Recall <$> report pred gold d
          = (λ j, ratio_of (class_tp pred gold j) (class_fn pred gold j))
              <$> seq 0 (ncols pred)) as ->.
  { apply (list_eq_same_length _ _ (ncols pred)).
    - by rewrite length_fmap, length_seq.
    - by rewrite length_fmap.
    - intros j x y Hj Hx Hy.
      apply list_lookup_fmap_Some in Hx as (row & -> & Hrow).
      apply list_lookup_fmap_Some in Hy as (j' & -> & Hj').
      apply lookup_seq in Hj' as [-> _].
      by destruct (report_lookup _ _ _ _ _ Hp Hg Hs Hrow) as (_ & _ & -> & _). }
  split; reflexivity.
Qed.

(** X18: when the predictions are the gold labels, there are no false
    positives and no false negatives, the true positives are the support,
    and every class of [report] has precision, recall and F1 equal to 1 if
    its support is positive and to 0 if its support is 0. *)
Theorem perfect_prediction gold (d : gmap nat Code) :
  wf_nd gold → nonneg gold →
  tp_matrix_mul_per_class gold gold = np_sum gold Axis0 ∧
  fp_matrix_mul_per_class gold gold = replicate (ncols gold) 0%Z ∧
  fn_matrix_mul_per_class gold gold = replicate (ncols gold) 0%Z ∧
  ∀ j row, report gold gold d !! j = Some row →
    ∃ p r f : Q,
      Precision row = Fin p ∧ Recall row = Fin r ∧ F1 row = Fin f ∧
      ((0 < Support row)%Z → (p == 1)%Q ∧ (r == 1)%Q ∧ (f == 1)%Q) ∧
      (Support row = 0%Z → (p == 0)%Q ∧ (r == 0)%Q ∧ (f == 0)%Q).
Proof.
  intros Hg Hnn. assert (same_shape gold gold) as Hs by done.
  destruct (per_class_vectors gold gold Hg Hg Hs) as (Htp & Hfp & Hfn).
  assert (∀ j, class_tp gold gold j = sigma (nrows gold) (λ i, at_ gold i j))
    as Hctp.
  { intros j. apply sigma_ext. intros i _. lia. }
  assert (∀ j, class_fp gold gold j = 0%Z ∧ class_fn gold gold j = 0%Z)
    as Hzero.
  { intros j. split; apply sigma_all_zero; intros i _; lia. }
  split; [|split; [|split]].
  - rewrite Htp, np_sum_spec by done. simpl. apply map_seq_ext.
    intros j _. apply Hctp.
  - rewrite Hfp. apply (list_eq_same_length _ _ (ncols gold)).
    + by rewrite length_replicate.
    + by rewrite length_fmap, length_seq.
    + intros j x y _ (j' & -> & _)%list_lookup_fmap_Some
        [-> _]%lookup_replicate. apply Hzero.
  - rewrite Hfn. apply (list_eq_same_length _ _ (ncols gold)).
    + by rewrite length_replicate.
    + by rewrite length_fmap, length_seq.
    + intros j x y _ (j' & -> & _)%list_lookup_fmap_Some
        [-> _]%lookup_replicate. apply Hzero.
  - intros j row Hrow.
    destruct (report_lookup _ _ _ _ _ Hg Hg Hs Hrow) as (Hj & HP & HR & HF).
    destruct (report_row_at _ _ _ _ _ Hg Hg Hs Hrow) as (_ & Hsup & _).
    rewrite <- Hctp in Hsup.
    destruct (Hzero j) as [Hfp0 Hfn0]. rewrite Hfp0 in HP. rewrite Hfn0 in HR.
    destruct (class_counts_nonneg gold gold j) as (Hn & _ & _); [done..|].
    destruct (scores_spec (class_tp gold gold j) 0 0)
      as (p & r & f & Hp' & Hr' & Hf' & Hpq & Hrq & Hfq & _ & _ & _ & Hz);
      [done..|].
    exists p, r, f. rewrite HF, HP, HR. split; [done|]. split; [done|].
    split; [done|]. rewrite Hsup. split; [|exact Hz].
    intros Hpos.
    assert (p == 1)%Q as Hp1.
    { rewrite Hpq. unfold guarded_ratio.
      destruct (class_tp gold gold j + 0 =? 0)%Z eqn:Hd;
        [apply Z.eqb_eq in Hd; lia|].
      rewrite Z.add_0_r. apply Qmult_inv_r.
      intros H0. apply (Qlt_irrefl 0). rewrite <- H0 at 2.
      rewrite <- (Zlt_Qlt 0). lia. }
    assert (r == 1)%Q as Hr1 by (by rewrite Hrq, <- Hpq).
    split; [done|]. split; [done|].
    rewrite Hfq. unfold guarded_f1.
    destruct (Qeq_bool (p + r) 0) eqn:Hb.
    + apply Qeq_bool_iff in Hb. rewrite Hp1, Hr1 in Hb. discriminate.
    + rewrite Hp1, Hr1. reflexivity.
Qed.
End reports_more.

Section scores_more.
Implicit Types (pred gold a : ndarray).






Lemma foldr_vec_add_nil (rows : list (list Z)) : foldr vec_add [] rows = [].
Proof.
  induction rows as [|r rows IH]; [done|]. simpl. rewrite IH.
  unfold vec_add. by destruct r.
Qed.

(** X20: on matrices without any column the averages of [report_macro] are
    taken over no value: its three scores are NaN, whereas the zero
    denominators of [report_micro] on the same input give 0. *)
Theorem report_macro_without_classes pred gold :
  same_shape pred gold → ncols pred = 0 →
  report_macro pred gold
  = {[ "Precision" := NaN; "Recall" := NaN; "F1" := NaN ]}.
Proof.
  intros _ Hnc. unfold report_macro.
  assert (tp_matrix_mul_per_class pred gold = []) as ->.
  { unfold tp_matrix_mul_per_class, tp_matrix_mul, np_minimum. simpl.
    rewrite Hnc. apply foldr_vec_add_nil. }
  reflexivity.
Qed.

(** *** Binarized inputs *)

Lemma greater_times_one_binary a : binary (greater_times_one a 0).
Proof.
  unfold binary. simpl. apply Forall_fmap, Forall_forall. intros r _. simpl.
  apply Forall_fmap, Forall_forall. intros x _. simpl.
  destruct (0 <? x)%Z; auto.
Qed.

Lemma greater_times_one_fixes_binary a :
  binary a → greater_times_one a 0 = a.
Proof.
  destruct a as [nc rows]. unfold binary, greater_times_one. simpl.
  intros Hb. f_equal. induction Hb as [|r rows Hr Hb IH]; [done|].
  simpl. f_equal; [|exact IH]. clear -Hr.
  induction Hr as [|x r [-> | ->] Hr IH]; simpl; [done|by f_equal..].
Qed.

(** X21: binarizing yields a matrix of zeros and ones and leaves such a
    matrix unchanged, so binarizing twice is binarizing once, and on
    matrices of zeros and ones [report_micro_bin] and [report_macro_bin]
    return what [report_micro] and [report_macro] return. *)
Theorem binarized_reports pred gold :
  binary (greater_times_one pred 0) ∧
  greater_times_one (greater_times_one pred 0) 0 = greater_times_one pred 0 ∧
  (binary pred → binary gold →
   report_micro_bin pred gold = report_micro pred gold ∧
   report_macro_bin pred gold = report_macro pred gold).
Proof.
  split; [apply greater_times_one_binary|]. split.
  - apply greater_times_one_fixes_binary, greater_times_one_binary.
  - intros Hp Hg. unfold report_micro_bin, report_macro_bin.
    by rewrite !greater_times_one_fixes_binary.
Qed.

(** *** F1 from the counts *)


End scores_more.

(** ** The further properties on the example data *)

Lemma shallow_lookups :
  ∀ layer leaf, layer < Z.to_nat 1 → leaf ∈ shallow_code_ids →
    ∃ ancestor,
      ancestor_of shallow_translation_dict leaf.1 layer = Ok ancestor ∧
      (false = false → Z.of_nat layer ≠ (1 - 2)%Z →
       ∃ double_ancestor,
         ancestor_of shallow_translation_dict ancestor layer
         = Ok double_ancestor).
Proof.
  intros layer leaf Hlayer Hleaf.
  assert (layer = 0) as -> by (simpl in Hlayer; lia).
  apply elem_of_cons in Hleaf as [->|Hleaf].
  { exists "a". split; [reflexivity|]. intros _ _. by exists "AB". }
  apply elem_of_cons in Hleaf as [->|Hleaf].
  { exists "d". split; [reflexivity|]. intros _ _. by exists "d". }
  by apply elem_of_nil in Hleaf.
Defined.

Lemma sparse_lookups :
  ∀ layer leaf, layer < Z.to_nat 1 → leaf ∈ sparse_code_ids →
    ∃ ancestor,
      ancestor_of shallow_translation_dict leaf.1 layer = Ok ancestor ∧
      (true = false → Z.of_nat layer ≠ (1 - 2)%Z →
       ∃ double_ancestor,
         ancestor_of shallow_translation_dict ancestor layer
         = Ok double_ancestor).
Proof.
  intros layer leaf Hlayer Hleaf.
  assert (layer = 0) as -> by (simpl in Hlayer; lia).
  apply elem_of_cons in Hleaf as [->|Hleaf].
  { exists "a". split; [reflexivity|]. intros [=]. }
  apply elem_of_cons in Hleaf as [->|Hleaf].
  { exists "d". split; [reflexivity|]. intros [=]. }
  by apply elem_of_nil in Hleaf.
Defined.

Lemma demo_setup_suppressing :
  setup_matrices_by_layer elements demo_code_ids demo_translation_dict 2 false
  = Raise KeyError.
Proof. vm_compute. reflexivity. Defined.

Lemma setup_output_lengths_witness :
  (0 ≤ 0)%Z ∧
  setup_matrices_by_layer elements demo_code_ids demo_translation_dict 0 false
    = Ok ([], []) ∧
  setup_matrices_by_layer elements demo_code_ids demo_translation_dict 2 true
    = Ok (demo_matrices, demo_layer_id_dicts) ∧
  length demo_matrices = Z.to_nat 2 ∧
  length demo_layer_id_dicts = Z.to_nat 2.
Proof.
  assert (0 ≤ 0)%Z as H0 by lia.
  split; [exact H0|]. split.
  - exact (proj1 (setup_output_lengths elements demo_code_ids
                    demo_translation_dict 0 false) H0).
  - split; [exact demo_setup|].
    exact (proj2 (setup_output_lengths elements demo_code_ids
                    demo_translation_dict 2 true) _ _ demo_setup).
Defined.

Lemma layer_shape_and_indices_witness :
  (∀ X : gset Code, NoDup (elements X)) ∧
  (∀ (X : gset Code) x, x ∈ elements X ↔ x ∈ X) ∧
  setup_matrices_by_layer elements shallow_code_ids shallow_translation_dict
    1 false = Ok ([shallow_matrix], [shallow_layer_id_dict]) ∧
  [shallow_matrix] !! 0 = Some shallow_matrix ∧
  [shallow_layer_id_dict] !! 0 = Some shallow_layer_id_dict ∧
  shape shallow_matrix
    = (length shallow_code_ids, size shallow_layer_id_dict) ∧
  (∀ a, is_Some (shallow_layer_id_dict !! a) ↔
        ∃ leaf, leaf ∈ shallow_code_ids ∧
                ancestor_of shallow_translation_dict leaf.1 0 = Ok a) ∧
  (∀ a j, shallow_layer_id_dict !! a = Some j →
          j < size shallow_layer_id_dict) ∧
  (∀ a b j, shallow_layer_id_dict !! a = Some j →
            shallow_layer_id_dict !! b = Some j → a = b) ∧
  (∀ j, j < size shallow_layer_id_dict →
        ∃ a, shallow_layer_id_dict !! a = Some j).
Proof.
  split; [exact NoDup_elements|]. split; [exact elem_of_elements|].
  split; [exact shallow_setup|]. split; [reflexivity|]. split; [reflexivity|].
  exact (layer_shape_and_indices elements NoDup_elements elem_of_elements
           shallow_code_ids shallow_translation_dict 1 false _ _ 0
           shallow_matrix shallow_layer_id_dict shallow_setup eq_refl eq_refl).
Defined.

Lemma every_column_has_a_leaf_witness :
  (∀ X : gset Code, NoDup (elements X)) ∧
  (∀ (X : gset Code) x, x ∈ elements X ↔ x ∈ X) ∧
  setup_matrices_by_layer elements shallow_code_ids shallow_translation_dict
    1 false = Ok ([shallow_matrix], [shallow_layer_id_dict]) ∧
  [shallow_matrix] !! 0 = Some shallow_matrix ∧
  1 < (shape shallow_matrix).2 ∧
  ∃ leaf t, leaf ∈ shallow_code_ids ∧ t ∈ coo shallow_matrix ∧
            t.1.1 = leaf.2 ∧ t.1.2 = 1.
Proof.
  assert (1 < (shape shallow_matrix).2) as Hj by (simpl; lia).
  split; [exact NoDup_elements|]. split; [exact elem_of_elements|].
  split; [exact shallow_setup|]. split; [reflexivity|]. split; [exact Hj|].
  exact (every_column_has_a_leaf elements NoDup_elements elem_of_elements
           shallow_code_ids shallow_translation_dict 1 false _ _ 0
           shallow_matrix 1 shallow_setup eq_refl Hj).
Defined.

Lemma setup_failure_origin_witness :
  (∀ X : gset Code, NoDup (elements X)) ∧
  (∀ (X : gset Code) x, x ∈ elements X ↔ x ∈ X) ∧
  setup_matrices_by_layer elements demo_code_ids demo_translation_dict 2 false
    = Raise KeyError ∧
  ∃ layer leaf,
    layer < Z.to_nat 2 ∧ leaf ∈ demo_code_ids ∧
    (ancestor_of demo_translation_dict leaf.1 layer = Raise KeyError ∨
     (false = false ∧ Z.of_nat layer ≠ (2 - 2)%Z ∧
      ∃ ancestor,
        ancestor_of demo_translation_dict leaf.1 layer = Ok ancestor ∧
        ancestor_of demo_translation_dict ancestor layer = Raise KeyError) ∨
     (KeyError = ValueError ∧ (length demo_code_ids ≤ leaf.2)%nat)).
Proof.
  split; [exact NoDup_elements|]. split; [exact elem_of_elements|].
  split; [exact demo_setup_suppressing|].
  exact (setup_failure_origin elements NoDup_elements elem_of_elements
           demo_code_ids demo_translation_dict 2 false KeyError
           demo_setup_suppressing).
Defined.

Lemma setup_succeeds_witness :
  (∀ X : gset Code, NoDup (elements X)) ∧
  (∀ (X : gset Code) x, x ∈ elements X ↔ x ∈ X) ∧
  Forall (λ leaf : Code * nat, leaf.2 < length shallow_code_ids)
         shallow_code_ids ∧
  (∀ layer leaf, layer < Z.to_nat 1 → leaf ∈ shallow_code_ids →
     ∃ ancestor,
       ancestor_of shallow_translation_dict leaf.1 layer = Ok ancestor ∧
       (false = false → Z.of_nat layer ≠ (1 - 2)%Z →
        ∃ double_ancestor,
          ancestor_of shallow_translation_dict ancestor layer
          = Ok double_ancestor)) ∧
  ∃ ms ds,
    setup_matrices_by_layer elements shallow_code_ids
      shallow_translation_dict 1 false = Ok (ms, ds).
Proof.
  assert (Forall (λ leaf : Code * nat, leaf.2 < length shallow_code_ids)
                 shallow_code_ids) as Hrange.
  { apply (bool_decide_unpack _). vm_compute. exact I. }
  split; [exact NoDup_elements|]. split; [exact elem_of_elements|].
  split; [exact Hrange|]. split; [exact shallow_lookups|].
  exact (setup_succeeds elements NoDup_elements elem_of_elements
           shallow_code_ids shallow_translation_dict 1 false Hrange
           shallow_lookups).
Defined.

Lemma index_out_of_range_raises_witness :
  (∀ X : gset Code, NoDup (elements X)) ∧
  (∀ (X : gset Code) x, x ∈ elements X ↔ x ∈ X) ∧
  (0 < 1)%Z ∧
  (∀ layer leaf, layer < Z.to_nat 1 → leaf ∈ sparse_code_ids →
     ∃ ancestor,
       ancestor_of shallow_translation_dict leaf.1 layer = Ok ancestor ∧
       (true = false → Z.of_nat layer ≠ (1 - 2)%Z →
        ∃ double_ancestor,
          ancestor_of shallow_translation_dict ancestor layer
          = Ok double_ancestor)) ∧
  ("d", 5) ∈ sparse_code_ids ∧ (length sparse_code_ids ≤ 5)%nat ∧
  setup_matrices_by_layer elements sparse_code_ids shallow_translation_dict
    1 true = Raise ValueError.
Proof.
  assert (0 < 1)%Z as Hmax by lia.
  assert (("d", 5) ∈ sparse_code_ids) as Hin by (right; left).
  assert (length sparse_code_ids ≤ 5)%nat as Hbig by (simpl; lia).
  split; [exact NoDup_elements|]. split; [exact elem_of_elements|].
  split; [exact Hmax|]. split; [exact sparse_lookups|].
  split; [exact Hin|]. split; [exact Hbig|].
  exact (index_out_of_range_raises elements NoDup_elements elem_of_elements
           sparse_code_ids shallow_translation_dict 1 true ("d", 5)
           Hmax sparse_lookups Hin Hbig).
Defined.

Lemma row_sum_of_leaf_witness :
  dense_index_map shallow_code_ids ∧
  setup_matrices_by_layer elements shallow_code_ids shallow_translation_dict
    1 false = Ok ([shallow_matrix], [shallow_layer_id_dict]) ∧
  [shallow_matrix] !! 0 = Some shallow_matrix ∧
  ("d", 1) ∈ shallow_code_ids ∧
  ∃ ancestor,
    ancestor_of shallow_translation_dict "d" 0 = Ok ancestor ∧
    (row_sum shallow_matrix 1 = 0%Z ∨ row_sum shallow_matrix 1 = 1%Z) ∧
    (false = true ∨ Z.of_nat 0 = (1 - 2)%Z → row_sum shallow_matrix 1 = 1%Z) ∧
    (false = false → Z.of_nat 0 ≠ (1 - 2)%Z →
     (row_sum shallow_matrix 1 = 0%Z ↔
      ancestor_of shallow_translation_dict ancestor 0 = Ok "d")).
Proof.
  assert (dense_index_map shallow_code_ids) as Hdense.
  { split; [|reflexivity]. apply (bool_decide_unpack _). vm_compute. exact I. }
  assert (("d", 1) ∈ shallow_code_ids) as Hin by (right; left).
  split; [exact Hdense|]. split; [exact shallow_setup|].
  split; [reflexivity|]. split; [exact Hin|].
  exact (row_sum_of_leaf elements shallow_code_ids shallow_translation_dict
           1 false _ _ 0 shallow_matrix ("d", 1) Hdense shallow_setup
           eq_refl Hin).
Defined.









Lemma swapping_roles_witness :
  wf_nd macro_pred ∧ wf_nd macro_gold ∧ same_shape macro_pred macro_gold ∧
  tp_matrix_mul macro_gold macro_pred Axis0
    = tp_matrix_mul macro_pred macro_gold Axis0 ∧
  fp_matrix_mul macro_gold macro_pred Axis0
    = fn_matrix_mul macro_pred macro_gold Axis0 ∧
  fn_matrix_mul macro_gold macro_pred Axis0
    = fp_matrix_mul macro_pred macro_gold Axis0 ∧
  report_micro macro_gold macro_pred !! "Precision"
    = report_micro macro_pred macro_gold !! "Recall" ∧
  report_micro macro_gold macro_pred !! "Recall"
    = report_micro macro_pred macro_gold !! "Precision".
Proof.
  destruct macro_example_wf as (Hp & Hg & Hs & _).
  split; [exact Hp|]. split; [exact Hg|]. split; [exact Hs|].
  exact (swapping_roles macro_pred macro_gold Axis0 Hp Hg Hs).
Defined.


Lemma macro_averages_the_report_witness :
  wf_nd macro_pred ∧ wf_nd macro_gold ∧ same_shape macro_pred macro_gold ∧
  (ncols macro_pred ≤ size macro_code_id_dict)%nat ∧
  report_macro macro_pred macro_gold !! "Precision"
    = Some (np_average
              (Precision <$> report macro_pred macro_gold macro_code_id_dict)) ∧
  report_macro macro_pred macro_gold !! "Recall"
    = Some (np_average
              (Recall <$> report macro_pred macro_gold macro_code_id_dict)).
Proof.
  destruct macro_example_wf as (Hp & Hg & Hs & _).
  assert (ncols macro_pred ≤ size macro_code_id_dict)%nat as Hsize
    by (vm_compute; lia).
  split; [exact Hp|]. split; [exact Hg|]. split; [exact Hs|].
  split; [exact Hsize|].
  exact (macro_averages_the_report macro_pred macro_gold macro_code_id_dict
           Hp Hg Hs Hsize).
Defined.

Lemma perfect_prediction_witness :
  wf_nd macro_gold ∧ nonneg macro_gold ∧
  tp_matrix_mul_per_class macro_gold macro_gold = np_sum macro_gold Axis0 ∧
  fp_matrix_mul_per_class macro_gold macro_gold
    = replicate (ncols macro_gold) 0%Z ∧
  fn_matrix_mul_per_class macro_gold macro_gold
    = replicate (ncols macro_gold) 0%Z ∧
  ∀ j row, report macro_gold macro_gold macro_code_id_dict !! j = Some row →
    ∃ p r f : Q,
      Precision row = Fin p ∧ Recall row = Fin r ∧ F1 row = Fin f ∧
      ((0 < Support row)%Z → (p == 1)%Q ∧ (r == 1)%Q ∧ (f == 1)%Q) ∧
      (Support row = 0%Z → (p == 0)%Q ∧ (r == 0)%Q ∧ (f == 0)%Q).
Proof.
  destruct macro_example_wf as (_ & Hg & _ & _ & Hng).
  split; [exact Hg|]. split; [exact Hng|].
  exact (perfect_prediction macro_gold macro_code_id_dict Hg Hng).
Defined.


Lemma report_macro_without_classes_witness :
  same_shape no_class_matrix no_class_matrix ∧ ncols no_class_matrix = 0 ∧
  report_macro no_class_matrix no_class_matrix
  = {[ "Precision" := NaN; "Recall" := NaN; "F1" := NaN ]}.
Proof.
  assert (same_shape no_class_matrix no_class_matrix) as Hs by done.
  split; [exact Hs|]. split; [reflexivity|].
  exact (report_macro_without_classes no_class_matrix no_class_matrix
           Hs eq_refl).
Defined.

Lemma binarized_reports_witness :
  binary macro_pred ∧ binary macro_gold ∧
  report_micro_bin macro_pred macro_gold = report_micro macro_pred macro_gold ∧
  report_macro_bin macro_pred macro_gold = report_macro macro_pred macro_gold.
Proof.
  assert (binary macro_pred) as Hp.
  { apply (bool_decide_unpack _). vm_compute. exact I. }
  assert (binary macro_gold) as Hg.
  { apply (bool_decide_unpack _). vm_compute. exact I. }
  split; [exact Hp|]. split; [exact Hg|].
  exact (proj2 (proj2 (binarized_reports macro_pred macro_gold)) Hp Hg).
Defined.

